(** * Ticket market: waiting list admission and capacity accounting

    A shallow embedding of the Convex event handlers found in
    [src/convex/users.ts] ([updateEvent], [create], [get], [getById],
    [getEventAvailability], [checkAvailability], [joinWaitingList]).

    Modelling conventions.
    - A Convex table is a list of documents in creation order; [ctx.db.insert]
      appends, [ctx.db.get] finds the document carrying the id,
      [ctx.db.patch] rewrites the document carrying the id.
    - A document id is a natural number drawn from a counter kept in the
      database, so every insert yields a fresh id.
    - JavaScript numbers that hold counts and millisecond timestamps are
      integers ([Z]); the ticket price is a rational.
    - A mutation handler is a computation in a state-and-error monad over the
      database; the state it returns is its working state at the point where
      it returned or threw. A query handler only reads the database.
    - [Date.now()] is frozen for the duration of one handler, so each handler
      takes the current time as an argument [now]. *)

From Stdlib Require Import ZArith QArith List String Bool Lia DecimalString.
Import ListNotations.
Open Scope Z_scope.

(** ** Constants *)

(** Modelled from the spec: [convex/constants.ts] is not part of the sources.
    The spec (section 3) enumerates the waiting-list statuses as WAITING,
    OFFERED, EXPIRED and PURCHASED; the handlers only name them through
    [WAITING_LIST_STATUS]. *)
Inductive WAITING_LIST_STATUS : Type :=
| WAITING
| OFFERED
| PURCHASED
| EXPIRED.

Definition status_eqb (a b : WAITING_LIST_STATUS) : bool :=
  match a, b with
  | WAITING, WAITING => true
  | OFFERED, OFFERED => true
  | PURCHASED, PURCHASED => true
  | EXPIRED, EXPIRED => true
  | _, _ => false
  end.

(** Modelled from the spec: [TICKET_STATUS] of [convex/constants.ts] is not
    part of the sources. The spec counts tickets with status in VALID, USED;
    [updateEvent] spells the same two statuses as the string literals below. *)
Definition TICKET_STATUS_VALID : string := "valid".

(** Modelled from the spec: the second counted status of [TICKET_STATUS], see
    [TICKET_STATUS_VALID]. *)
Definition TICKET_STATUS_USED : string := "used".

(** ** Documents *)

Definition Id := nat.
Bind Scope nat_scope with Id.

Record Event : Type := mkEvent {
  ev_id : Id;
  name : string;
  description : string;
  location : string;
  eventDate : Z;
  price : Q;
  totalTickets : Z;
  ev_userId : string;
  is_cancelled : option bool
}.

Record Ticket : Type := mkTicket {
  tk_id : Id;
  tk_eventId : Id;
  tk_status : string
}.

Record WaitingListEntry : Type := mkWaitingListEntry {
  wl_id : Id;
  wl_eventId : Id;
  wl_userId : string;
  wl_status : WAITING_LIST_STATUS;
  offerExpiresAt : option Z
}.

(** The only function the handlers hand to the scheduler. *)
Inductive FunctionRef : Type :=
| internal_waitingList_expireOffer.

(** A job registered by [ctx.scheduler.runAfter(delay, fn, args)]. *)
Record ScheduledJob : Type := mkScheduledJob {
  sj_scheduledAt : Z;
  sj_delay : Z;
  sj_function : FunctionRef;
  sj_waitingListId : Id;
  sj_eventId : Id
}.

Record Db : Type := mkDb {
  events : list Event;
  tickets : list Ticket;
  waitingList : list WaitingListEntry;
  scheduled : list ScheduledJob;
  nextId : Id
}.

Definition emptyDb : Db := mkDb [] [] [] [] 0%nat.

(** ** Errors *)

Inductive Error : Type :=
| EventNotFound
| AlreadyInWaitingList
| CannotReduceTotalTickets (sold : nat).

Definition error_message (e : Error) : string :=
  match e with
  | EventNotFound => "Event not found"
  | AlreadyInWaitingList => "Already in waiting list for this event"
  | CannotReduceTotalTickets sold =>
      String.append "Cannot reduce total tickets below "
        (String.append (NilZero.string_of_uint (Nat.to_uint sold))
           " (number of tickets already sold)")
  end.

(** ** Handlers as computations *)

(** A query reads one snapshot of the database. *)
Definition Query (A : Type) : Type := Db -> Error + A.

(** A mutation threads the database and may throw. *)
Definition Tx (A : Type) : Type := Db -> (Error + A) * Db.

Definition ret {A : Type} (a : A) : Tx A := fun db => (inr a, db).

Definition throw {A : Type} (e : Error) : Tx A := fun db => (inl e, db).

Definition bind {A B : Type} (m : Tx A) (k : A -> Tx B) : Tx B :=
  fun db =>
    match m db with
    | (inl e, db') => (inl e, db')
    | (inr a, db') => k a db'
    end.

Notation "x <- m ;; k" := (bind m (fun x => k))
  (at level 61, m at next level, right associativity).
Notation "m ;;; k" := (bind m (fun _ => k))
  (at level 61, right associativity).

(** [ctx.runQuery] inside a mutation: the query sees the working state and
    leaves it as it is. *)
Definition runQuery {A : Type} (q : Query A) : Tx A := fun db => (q db, db).

(** Convex runs a mutation handler as one transaction: a throw discards the
    working state. *)
Definition mutation {A : Type} (m : Tx A) (db : Db) : (Error + A) * Db :=
  match m db with
  | (inl e, _) => (inl e, db)
  | (inr a, db') => (inr a, db')
  end.

(** ** Database primitives *)

Definition get_event (db : Db) (eventId : Id) : option Event :=
  find (fun e => Nat.eqb (ev_id e) eventId) (events db).

Definition db_get_event (eventId : Id) : Tx (option Event) :=
  fun db => (inr (get_event db eventId), db).

Definition get_waitingListEntry (db : Db) (id : Id) : option WaitingListEntry :=
  find (fun w => Nat.eqb (wl_id w) id) (waitingList db).

(** [query("tickets").withIndex("by_event", q => q.eq("eventId", eventId))] *)
Definition tickets_by_event (db : Db) (eventId : Id) : list Ticket :=
  filter (fun t => Nat.eqb (tk_eventId t) eventId) (tickets db).

(** [query("waitingList").withIndex("by_event_status", ...)] *)
Definition waitingList_by_event_status
  (db : Db) (eventId : Id) (st : WAITING_LIST_STATUS) : list WaitingListEntry :=
  filter (fun w => Nat.eqb (wl_eventId w) eventId && status_eqb (wl_status w) st)
    (waitingList db).

(** [query("waitingList").withIndex("by_user_event", ...)] *)
Definition waitingList_by_user_event
  (db : Db) (userId : string) (eventId : Id) : list WaitingListEntry :=
  filter (fun w => String.eqb (wl_userId w) userId && Nat.eqb (wl_eventId w) eventId)
    (waitingList db).

Definition insert_event
  (nm ds lc : string) (dt : Z) (pr : Q) (tt : Z) (uid : string) : Tx Id :=
  fun db =>
    let id := nextId db in
    (inr id,
     mkDb (events db ++ [mkEvent id nm ds lc dt pr tt uid None])
       (tickets db) (waitingList db) (scheduled db) (S id)).

Definition insert_waitingList
  (eventId : Id) (userId : string) (st : WAITING_LIST_STATUS)
  (expires : option Z) : Tx Id :=
  fun db =>
    let id := nextId db in
    (inr id,
     mkDb (events db) (tickets db)
       (waitingList db ++ [mkWaitingListEntry id eventId userId st expires])
       (scheduled db) (S id)).

(** The fields [updateEvent] passes to [ctx.db.patch]. *)
Record EventUpdates : Type := mkEventUpdates {
  up_name : string;
  up_description : string;
  up_location : string;
  up_eventDate : Z;
  up_price : Q;
  up_totalTickets : Z
}.

Definition apply_updates (u : EventUpdates) (e : Event) : Event :=
  mkEvent (ev_id e) (up_name u) (up_description u) (up_location u)
    (up_eventDate u) (up_price u) (up_totalTickets u)
    (ev_userId e) (is_cancelled e).

Definition patch_event (eventId : Id) (u : EventUpdates) : Tx unit :=
  fun db =>
    (inr tt,
     mkDb (map (fun e => if Nat.eqb (ev_id e) eventId then apply_updates u e else e)
             (events db))
       (tickets db) (waitingList db) (scheduled db) (nextId db)).

(** [ctx.db.patch] on the waiting list; the handlers under study do not call
    it, [expireOffer] does. *)
Definition patch_waitingList
  (id : Id) (f : WaitingListEntry -> WaitingListEntry) : Tx unit :=
  fun db =>
    (inr tt,
     mkDb (events db) (tickets db)
       (map (fun w => if Nat.eqb (wl_id w) id then f w else w) (waitingList db))
       (scheduled db) (nextId db)).

(** [ctx.scheduler.runAfter(delay, fn, { waitingListId, eventId })] *)
Definition scheduler_runAfter
  (now delay : Z) (fn : FunctionRef) (waitingListId eventId : Id) : Tx unit :=
  fun db =>
    (inr tt,
     mkDb (events db) (tickets db) (waitingList db)
       (scheduled db ++ [mkScheduledJob now delay fn waitingListId eventId])
       (nextId db)).

(** ** The event handlers *)

Definition updateEvent (eventId : Id) (updates : EventUpdates) : Tx Id :=
  event <- db_get_event eventId ;;
  match event with
  | None => throw EventNotFound
  | Some _ =>
      soldTickets <-
        (fun db =>
           (inr (filter (fun t => String.eqb (tk_status t) "valid"
                                  || String.eqb (tk_status t) "used")
                   (tickets_by_event db eventId)), db)) ;;
      if up_totalTickets updates <? Z.of_nat (List.length soldTickets)
      then throw (CannotReduceTotalTickets (List.length soldTickets))
      else patch_event eventId updates ;;; ret eventId
  end.

Definition create
  (nm ds lc : string) (dt : Z) (pr : Q) (tt : Z) (uid : string) : Tx Id :=
  insert_event nm ds lc dt pr tt uid.

(** [query("events").filter(q => q.eq(q.field("is_cancelled"), undefined))] *)
Definition get : Query (list Event) :=
  fun db =>
    inr (filter (fun e => match is_cancelled e with None => true | Some _ => false end)
           (events db)).

Definition getById (eventId : Id) : Query (option Event) :=
  fun db => inr (get_event db eventId).

Record EventAvailability : Type := mkEventAvailability {
  isSoldOut : bool;
  ea_totalTickets : Z;
  ea_purchasedCount : Z;
  ea_activeOffers : Z;
  remainingTickets : Z
}.

(** [t.status === TICKET_STATUS.VALID || t.status === TICKET_STATUS.USED] *)
Definition is_purchased (t : Ticket) : bool :=
  String.eqb (tk_status t) TICKET_STATUS_VALID
  || String.eqb (tk_status t) TICKET_STATUS_USED.

(** [(e.offerExpiresAt ?? 0) > now] *)
Definition offer_unexpired (now : Z) (e : WaitingListEntry) : bool :=
  match offerExpiresAt e with
  | Some t => t >? now
  | None => 0 >? now
  end.

Definition getEventAvailability (eventId : Id) (now : Z) : Query EventAvailability :=
  fun db =>
    match get_event db eventId with
    | None => inl EventNotFound
    | Some event =>
        let purchasedCount :=
          Z.of_nat (List.length (filter is_purchased (tickets_by_event db eventId))) in
        let activeOffers :=
          Z.of_nat (List.length (filter (offer_unexpired now)
                              (waitingList_by_event_status db eventId OFFERED))) in
        let totalReserved := purchasedCount + activeOffers in
        inr (mkEventAvailability
               (totalReserved >=? totalTickets event)
               (totalTickets event)
               purchasedCount
               activeOffers
               (Z.max 0 (totalTickets event - totalReserved)))
    end.

Record Availability : Type := mkAvailability {
  available : bool;
  availableSpots : Z;
  ca_totalTickets : Z;
  ca_purchasedCount : Z;
  ca_activeOffers : Z
}.

Definition checkAvailability (eventId : Id) (now : Z) : Query Availability :=
  fun db =>
    match get_event db eventId with
    | None => inl EventNotFound
    | Some event =>
        let purchasedCount :=
          Z.of_nat (List.length (filter is_purchased (tickets_by_event db eventId))) in
        let activeOffers :=
          Z.of_nat (List.length (filter (offer_unexpired now)
                              (waitingList_by_event_status db eventId OFFERED))) in
        let availableSpots := totalTickets event - (purchasedCount + activeOffers) in
        inr (mkAvailability
               (availableSpots >? 0)
               availableSpots
               (totalTickets event)
               purchasedCount
               activeOffers)
    end.

Record JoinResult : Type := mkJoinResult {
  success : bool;
  status : WAITING_LIST_STATUS;
  message : string
}.

Section Offers.

(** [DURATIONS.TICKET_OFFER] of [convex/constants.ts], in milliseconds. The
    file is not part of the sources, so the duration is a parameter. *)
Variable TICKET_OFFER : Z.

(** JavaScript's conversion of a number to a string inside a template
    literal, applied to the quotient [TICKET_OFFER / (60 * 1000)]. *)
Variable Number_toString : Q -> string.

Definition offer_minutes : Q := (inject_Z TICKET_OFFER / inject_Z (60 * 1000))%Q.

Definition offered_message : string :=
  String.append "Ticket offered - you have "
    (String.append (Number_toString offer_minutes) " minutes to purchase").

Definition waiting_message : string :=
  "Added to waiting list - you'll be notified when a ticket becomes available".

Definition joinWaitingList (eventId : Id) (userId : string) (now : Z) : Tx JoinResult :=
  existingEntry <-
    (fun db =>
       (inr (hd_error
               (filter (fun w => negb (status_eqb (wl_status w) EXPIRED))
                  (waitingList_by_user_event db userId eventId))), db)) ;;
  match existingEntry with
  | Some _ => throw AlreadyInWaitingList
  | None =>
      event <- db_get_event eventId ;;
      match event with
      | None => throw EventNotFound
      | Some _ =>
          r <- runQuery (checkAvailability eventId now) ;;
          let available := available r in
          (if available
           then
             waitingListId <-
               insert_waitingList eventId userId OFFERED (Some (now + TICKET_OFFER)) ;;
             scheduler_runAfter now TICKET_OFFER internal_waitingList_expireOffer
               waitingListId eventId
           else
             insert_waitingList eventId userId WAITING None ;;; ret tt) ;;;
          ret (mkJoinResult true
                 (if available then OFFERED else WAITING)
                 (if available then offered_message else waiting_message))
      end
  end.

(** Modelled from the spec: [internal.waitingList.expireOffer] is scheduled by
    [joinWaitingList] but its module is not part of the sources. Section 4.3
    of the spec: load the entry; when the entry or the event cannot be loaded
    the task is dropped; when the entry is no longer OFFERED nothing happens;
    otherwise the entry becomes EXPIRED and promotion is attempted. *)
Definition promote (eventId : Id) (now : Z) : Tx unit :=
  a <- runQuery (getEventAvailability eventId now) ;;
  if remainingTickets a >? 0
  then
    next <-
      (fun db => (inr (hd_error (waitingList_by_event_status db eventId WAITING)), db)) ;;
    match next with
    | None => ret tt
    | Some w =>
        patch_waitingList (wl_id w)
          (fun x => mkWaitingListEntry (wl_id x) (wl_eventId x) (wl_userId x)
                      OFFERED (Some (now + TICKET_OFFER))) ;;;
        scheduler_runAfter now TICKET_OFFER internal_waitingList_expireOffer
          (wl_id w) eventId
    end
  else ret tt.

(** Modelled from the spec: the OFFERED to EXPIRED transition of section 4.3,
    step 2; only the status changes. *)
Definition mark_expired (x : WaitingListEntry) : WaitingListEntry :=
  mkWaitingListEntry (wl_id x) (wl_eventId x) (wl_userId x) EXPIRED (offerExpiresAt x).

(** Modelled from the spec: section 4.3, steps 1 to 3 (see [promote]). *)
Definition expireOffer (waitingListId eventId : Id) (now : Z) : Tx unit :=
  fun db =>
    match get_waitingListEntry db waitingListId, get_event db eventId with
    | Some offer, Some _ =>
        if status_eqb (wl_status offer) OFFERED
        then (patch_waitingList waitingListId mark_expired ;;; promote eventId now) db
        else (inr tt, db)
    | _, _ => (inr tt, db)
    end.

End Offers.

(** An instance of the number rendering for durations that are a whole number
    of minutes: JavaScript prints an integral number below 10^21 as its
    decimal digits. *)
Definition integral_toString (q : Q) : string :=
  NilZero.string_of_int (Z.to_int (Qnum q / Zpos (Qden q))).

(** ** Counting, as the spec words it *)

Fixpoint count_if {A : Type} (p : A -> bool) (l : list A) : nat :=
  match l with
  | [] => 0%nat
  | x :: l' => if p x then S (count_if p l') else count_if p l'
  end.

(** A ticket of the event with status valid or used. *)
Definition sold_ticket_of (eventId : Id) (t : Ticket) : bool :=
  Nat.eqb (tk_eventId t) eventId
  && (String.eqb (tk_status t) "valid" || String.eqb (tk_status t) "used").

(** An entry of the event that is OFFERED and carries an expiry time strictly
    greater than [now]. *)
Definition active_offer_of (eventId : Id) (now : Z) (w : WaitingListEntry) : bool :=
  Nat.eqb (wl_eventId w) eventId
  && status_eqb (wl_status w) OFFERED
  && match offerExpiresAt w with
     | Some t => now <? t
     | None => false
     end.

(** An entry of the pair (user, event) whose status is not EXPIRED. *)
Definition active_entry_of (userId : string) (eventId : Id) (w : WaitingListEntry) : Prop :=
  wl_userId w = userId /\ wl_eventId w = eventId /\ wl_status w <> EXPIRED.

Definition set_waitingList (l : list WaitingListEntry) (db : Db) : Db :=
  mkDb (events db) (tickets db) l (scheduled db) (nextId db).

(** All waiting-list entries of an event, whatever their status. *)
Definition waitingList_of_event (db : Db) (eventId : Id) : list WaitingListEntry :=
  filter (fun w => Nat.eqb (wl_eventId w) eventId) (waitingList db).

(** ** Sample states *)

(** A thirty minute offer. *)
Definition sample_TICKET_OFFER : Z := 30 * 60 * 1000.

Definition sample_event : Event :=
  mkEvent 0 "Concert" "An evening of music" "Town hall" 1790000000000
    (inject_Z 25) 2 "seller" None.

(** One event with two tickets, nothing sold, nobody queued. *)
Definition db_fresh : Db := mkDb [sample_event] [] [] [] 1.

Definition sample_offer : WaitingListEntry :=
  mkWaitingListEntry 2 0 "alice" OFFERED (Some 1801000).

(** Capacity two, one valid ticket, one offer that expires at 1801000. *)
Definition db_full : Db :=
  mkDb [sample_event]
    [mkTicket 1 0 "valid"]
    [sample_offer]
    [mkScheduledJob 1000 sample_TICKET_OFFER internal_waitingList_expireOffer 2 0]
    3.

(** The same state once the offer has been marked EXPIRED. *)
Definition db_lapsed : Db :=
  mkDb [sample_event]
    [mkTicket 1 0 "valid"]
    [mkWaitingListEntry 2 0 "alice" EXPIRED (Some 1801000)]
    [mkScheduledJob 1000 sample_TICKET_OFFER internal_waitingList_expireOffer 2 0]
    3.

(** A queue entry whose event is not in the events table. *)
Definition db_dangling : Db :=
  mkDb [] [] [mkWaitingListEntry 0 7 "alice" WAITING None] [] 1.

(** An OFFERED entry that carries no expiry time. *)
Definition db_no_expiry : Db :=
  mkDb [sample_event] [] [mkWaitingListEntry 1 0 "alice" OFFERED None] [] 2.

(** [db_fresh] after bob joined at time 1000 and received an offer. *)
Definition db_fresh_bob : Db :=
  mkDb [sample_event] []
    [mkWaitingListEntry 1 0 "bob" OFFERED (Some 1801000)]
    [mkScheduledJob 1000 sample_TICKET_OFFER internal_waitingList_expireOffer 1 0]
    2.

(** [db_full] with bob queued behind alice's offer. *)
Definition db_queue : Db :=
  mkDb [sample_event]
    [mkTicket 1 0 "valid"]
    [sample_offer; mkWaitingListEntry 3 0 "bob" WAITING None]
    [mkScheduledJob 1000 sample_TICKET_OFFER internal_waitingList_expireOffer 2 0]
    4.

Definition sample_updates (capacity : Z) : EventUpdates :=
  mkEventUpdates "Gala" "A longer evening" "Opera house" 1790000600000
    (inject_Z 30) capacity.

(** The state a mutation commits. *)
Definition committed {A : Type} (m : Tx A) (db : Db) : Db := snd (mutation m db).

(** An event created with two tickets, two users admitted with an offer each,
    then the capacity lowered to one: no ticket is sold, so [updateEvent]
    accepts the new capacity. *)
Definition db_shrunk : Db :=
  committed
    (updateEvent 0
       (mkEventUpdates "Concert" "An evening of music" "Town hall" 1790000000000
          (inject_Z 25) 1))
    (committed (joinWaitingList sample_TICKET_OFFER integral_toString 0 "bob" 2000)
       (committed (joinWaitingList sample_TICKET_OFFER integral_toString 0 "alice" 1000)
          (committed
             (create "Concert" "An evening of music" "Town hall" 1790000000000
                (inject_Z 25) 2 "seller")
             emptyDb))).

(** ** The user handler *)

(** A document of the users table. *)
Record User : Type := mkUser {
  us_id : Id;
  us_userId : string;
  us_name : string;
  us_email : string;
  stripeConnectId : option string
}.

(** The users table with the counter its ids are drawn from. [updateUser]
    reads and writes no other table, and no event handler reads this one. *)
Record UsersDb : Type := mkUsersDb {
  users : list User;
  users_nextId : Id
}.

Definition emptyUsersDb : UsersDb := mkUsersDb [] 0.

(** [query("users").withIndex("by_user_id", q => q.eq("userId", userId)).first()] *)
Definition first_user_by_user_id (udb : UsersDb) (userId : string) : option User :=
  hd_error (filter (fun u => String.eqb (us_userId u) userId) (users udb)).

(** [ctx.db.patch(existingUser._id, { name, email })] *)
Definition patch_user (id : Id) (nm em : string) (udb : UsersDb) : UsersDb :=
  mkUsersDb
    (map (fun u => if Nat.eqb (us_id u) id
                   then mkUser (us_id u) (us_userId u) nm em (stripeConnectId u)
                   else u)
       (users udb))
    (users_nextId udb).

(** [ctx.db.insert("users", { userId, name, email, stripeConnectId: undefined })] *)
Definition insert_user (userId nm em : string) (udb : UsersDb) : Id * UsersDb :=
  (users_nextId udb,
   mkUsersDb (users udb ++ [mkUser (users_nextId udb) userId nm em None])
     (S (users_nextId udb))).

Definition updateUser (userId nm em : string) (udb : UsersDb) : Id * UsersDb :=
  match first_user_by_user_id udb userId with
  | Some existingUser =>
      (us_id existingUser, patch_user (us_id existingUser) nm em udb)
  | None => insert_user userId nm em udb
  end.

(** Document ids are distinct, user ids are distinct, and every document id
    lies below the counter. *)
Definition users_inv (udb : UsersDb) : Prop :=
  NoDup (map us_id (users udb))
  /\ NoDup (map us_userId (users udb))
  /\ Forall (fun u => (us_id u < users_nextId udb)%nat) (users udb).

Definition udb_alice : UsersDb :=
  mkUsersDb [mkUser 0 "alice" "Alice" "alice@example.org" (Some "acct_1"%string)] 1.

(** ** Sequences of mutations *)

Inductive call : Type :=
| call_create (nm ds lc : string) (dt : Z) (pr : Q) (total : Z) (uid : string)
| call_updateEvent (eventId : Id) (updates : EventUpdates)
| call_joinWaitingList (eventId : Id) (userId : string) (now : Z).

(** The state one call commits. *)
Definition run_call
  (TICKET_OFFER : Z) (Number_toString : Q -> string) (c : call) (db : Db) : Db :=
  match c with
  | call_create nm ds lc dt pr total uid =>
      committed (create nm ds lc dt pr total uid) db
  | call_updateEvent eventId updates => committed (updateEvent eventId updates) db
  | call_joinWaitingList eventId userId now =>
      committed (joinWaitingList TICKET_OFFER Number_toString eventId userId now) db
  end.

Definition run_calls
  (TICKET_OFFER : Z) (Number_toString : Q -> string) (cs : list call) (db : Db) : Db :=
  fold_left (fun d c => run_call TICKET_OFFER Number_toString c d) cs db.

(** ** Shapes of the database *)


(** Every waiting-list entry belongs to an event of the events table. *)
Definition entries_refer_to_events (db : Db) : Prop :=
  Forall (fun w => get_event db (wl_eventId w) <> None) (waitingList db).

(** Every ticket belongs to an event of the events table. *)
Definition tickets_refer_to_events (db : Db) : Prop :=
  Forall (fun t => get_event db (tk_eventId t) <> None) (tickets db).

(** The boolean reading of [active_entry_of]. *)
Definition active_pairb (userId : string) (eventId : Id) (w : WaitingListEntry) : bool :=
  String.eqb (wl_userId w) userId
  && Nat.eqb (wl_eventId w) eventId
  && negb (status_eqb (wl_status w) EXPIRED).

(** No pair (user, event) has two entries that are not EXPIRED. *)
Definition one_active_per_pair (db : Db) : Prop :=
  forall userId eventId,
    (count_if (active_pairb userId eventId) (waitingList db) <= 1)%nat.

(** A WAITING entry carries no expiry time and an OFFERED entry carries one. *)
Definition expiry_shape (db : Db) : Prop :=
  Forall (fun w => (wl_status w = WAITING -> offerExpiresAt w = None)
                   /\ (wl_status w = OFFERED -> offerExpiresAt w <> None))
    (waitingList db).

(** Every scheduled job names an entry of the waiting list, with the entry's
    event, and is due at the entry's expiry time. *)
Definition jobs_match_offers (db : Db) : Prop :=
  Forall (fun j => exists w,
              In w (waitingList db)
              /\ wl_id w = sj_waitingListId j
              /\ wl_eventId w = sj_eventId j
              /\ offerExpiresAt w = Some (sj_scheduledAt j + sj_delay j))
    (scheduled db).

Definition sample_calls : list call :=
  [call_create "Recital" "Piano" "Chapel" 1790000700000 (inject_Z 12) 1 "seller";
   call_joinWaitingList 3 "carol" 5000;
   call_joinWaitingList 3 "dave" 6000;
   call_joinWaitingList 0 "alice" 7000;
   call_updateEvent 3 (sample_updates 4);
   call_updateEvent 0 (sample_updates 0)].

(** ** Basic facts *)

Lemma status_eqb_eq (a b : WAITING_LIST_STATUS) : status_eqb a b = true <-> a = b.
Proof. destruct a, b; simpl; split; intro H; try reflexivity; discriminate H. Qed.

Lemma status_eqb_neq (a b : WAITING_LIST_STATUS) : status_eqb a b = false <-> a <> b.
Proof.
  rewrite <- status_eqb_eq. destruct (status_eqb a b); split; intro H;
    try reflexivity; try discriminate; try (intro H'; discriminate H').
  exfalso; apply H; reflexivity.
Qed.

Lemma length_filter_filter {A : Type} (p q : A -> bool) (l : list A) :
  List.length (filter q (filter p l)) = count_if (fun x => p x && q x) l.
Proof.
  induction l as [|x l IH]; simpl; [reflexivity|].
  destruct (p x); simpl; [|exact IH].
  destruct (q x); simpl; [f_equal|]; exact IH.
Qed.

Lemma count_if_ext {A : Type} (p q : A -> bool) (l : list A) :
  (forall x, In x l -> p x = q x) -> count_if p l = count_if q l.
Proof.
  induction l as [|x l IH]; simpl; intro H; [reflexivity|].
  rewrite (H x (or_introl eq_refl)), IH; [reflexivity|].
  intros y Hy. apply H. right. exact Hy.
Qed.

(** The purchased count both availability handlers compute. *)
Lemma purchased_count_spec (db : Db) (eventId : Id) :
  List.length (filter is_purchased (tickets_by_event db eventId))
  = count_if (sold_ticket_of eventId) (tickets db).
Proof. unfold tickets_by_event. apply length_filter_filter. Qed.

(** The active-offer count both availability handlers compute, at a
    non-negative clock. *)
Lemma active_offers_spec (db : Db) (eventId : Id) (now : Z) :
  0 <= now ->
  List.length (filter (offer_unexpired now)
                 (waitingList_by_event_status db eventId OFFERED))
  = count_if (active_offer_of eventId now) (waitingList db).
Proof.
  intro Hnow. unfold waitingList_by_event_status.
  rewrite length_filter_filter. apply count_if_ext. intros w _.
  unfold active_offer_of, offer_unexpired.
  destruct (offerExpiresAt w) as [t|].
  - rewrite Z.gtb_ltb. reflexivity.
  - replace (0 >? now) with false; [reflexivity|].
    symmetry. rewrite Z.gtb_ltb. apply Z.ltb_ge. exact Hnow.
Qed.

Lemma hd_error_filter_none {A : Type} (p : A -> bool) (l : list A) :
  (forall x, In x l -> p x = false) -> hd_error (filter p l) = None.
Proof.
  induction l as [|x l IH]; simpl; intro H; [reflexivity|].
  rewrite (H x (or_introl eq_refl)). apply IH.
  intros y Hy. apply H. right. exact Hy.
Qed.

Lemma hd_error_filter_some {A : Type} (p : A -> bool) (l : list A) (x : A) :
  In x l -> p x = true -> exists y, hd_error (filter p l) = Some y.
Proof.
  induction l as [|z l IH]; simpl; intros Hin Hp; [contradiction|].
  destruct (p z) eqn:Hz; simpl.
  - exists z. reflexivity.
  - destruct Hin as [->|Hin]; [congruence|]. apply IH; assumption.
Qed.

Section JoinFacts.

Variable TICKET_OFFER : Z.
Variable Number_toString : Q -> string.

Local Abbreviation join := (joinWaitingList TICKET_OFFER Number_toString).

(** The duplicate guard fires as soon as the pair has an entry that is not
    EXPIRED; nothing has been written at that point. *)
Lemma join_duplicate (db : Db) (eventId : Id) (userId : string) (now : Z) :
  (exists w, In w (waitingList db) /\ active_entry_of userId eventId w) ->
  join eventId userId now db = (inl AlreadyInWaitingList, db).
Proof.
  intros [w [Hin [Hu [He Hs]]]].
  unfold join, joinWaitingList, bind.
  destruct (hd_error_filter_some
              (fun w => negb (status_eqb (wl_status w) EXPIRED))
              (waitingList_by_user_event db userId eventId) w) as [y Hy].
  - unfold waitingList_by_user_event. apply filter_In. split; [exact Hin|].
    rewrite Hu, He, String.eqb_refl, Nat.eqb_refl. reflexivity.
  - apply negb_true_iff. apply status_eqb_neq. exact Hs.
  - rewrite Hy. reflexivity.
Qed.

Lemma no_active_entry_guard (db : Db) (eventId : Id) (userId : string) :
  (forall w, In w (waitingList db) -> ~ active_entry_of userId eventId w) ->
  hd_error (filter (fun w => negb (status_eqb (wl_status w) EXPIRED))
              (waitingList_by_user_event db userId eventId)) = None.
Proof.
  intro H. apply hd_error_filter_none. intros w Hw.
  unfold waitingList_by_user_event in Hw. apply filter_In in Hw.
  destruct Hw as [Hin Hk]. apply andb_true_iff in Hk. destruct Hk as [Hu He].
  apply String.eqb_eq in Hu. apply Nat.eqb_eq in He.
  apply negb_false_iff. apply status_eqb_eq.
  destruct (wl_status w) eqn:Hs; try reflexivity;
    exfalso; apply (H w Hin); repeat split; try assumption; rewrite Hs; discriminate.
Qed.

(** With no active entry and no such event the handler throws before any
    write. *)
Lemma join_missing_event (db : Db) (eventId : Id) (userId : string) (now : Z) :
  (forall w, In w (waitingList db) -> ~ active_entry_of userId eventId w) ->
  get_event db eventId = None ->
  join eventId userId now db = (inl EventNotFound, db).
Proof.
  intros Hno Hev. unfold join, joinWaitingList, bind.
  rewrite (no_active_entry_guard db eventId userId Hno).
  unfold db_get_event. rewrite Hev. reflexivity.
Qed.

(** The state and the result of a join that passes both guards. *)
Lemma join_passes (db : Db) (eventId : Id) (userId : string) (now : Z) (ev : Event) :
  (forall w, In w (waitingList db) -> ~ active_entry_of userId eventId w) ->
  get_event db eventId = Some ev ->
  join eventId userId now db =
    if totalTickets ev
       - (Z.of_nat (List.length (filter is_purchased (tickets_by_event db eventId)))
          + Z.of_nat (List.length (filter (offer_unexpired now)
                                (waitingList_by_event_status db eventId OFFERED))))
       >? 0
    then
      (inr (mkJoinResult true OFFERED (offered_message TICKET_OFFER Number_toString)),
       mkDb (events db) (tickets db)
         (waitingList db
          ++ [mkWaitingListEntry (nextId db) eventId userId OFFERED
                (Some (now + TICKET_OFFER))])
         (scheduled db
          ++ [mkScheduledJob now TICKET_OFFER internal_waitingList_expireOffer
                (nextId db) eventId])
         (S (nextId db)))
    else
      (inr (mkJoinResult true WAITING waiting_message),
       mkDb (events db) (tickets db)
         (waitingList db ++ [mkWaitingListEntry (nextId db) eventId userId WAITING None])
         (scheduled db)
         (S (nextId db))).
Proof.
  intros Hno Hev. unfold join, joinWaitingList, bind.
  rewrite (no_active_entry_guard db eventId userId Hno).
  unfold db_get_event, runQuery, checkAvailability. rewrite Hev. simpl.
  rewrite Hev. simpl.
  destruct (_ >? 0); reflexivity.
Qed.

End JoinFacts.

(** ** Duplicate guard and admission *)

Section JoinClaims.

Variable TICKET_OFFER : Z.
Variable Number_toString : Q -> string.

Local Abbreviation join := (joinWaitingList TICKET_OFFER Number_toString).

(** C1. [joinWaitingList] fails with the already-in-waiting-list error as soon
    as the pair (user, event) has an entry whose status is not EXPIRED; when
    every entry of the pair is EXPIRED (or there is none) and the event
    exists, the call succeeds and appends a new entry for the pair. *)
Theorem joinWaitingList_duplicate_guard
  (db : Db) (eventId : Id) (userId : string) (now : Z) :
  ((exists w, In w (waitingList db) /\ active_entry_of userId eventId w) ->
   fst (join eventId userId now db) = inl AlreadyInWaitingList)
  /\
  ((forall w, In w (waitingList db) ->
      wl_userId w = userId -> wl_eventId w = eventId -> wl_status w = EXPIRED) ->
   (exists ev, get_event db eventId = Some ev) ->
   exists r db' w,
     join eventId userId now db = (inr r, db')
     /\ waitingList db' = waitingList db ++ [w]
     /\ wl_id w = nextId db
     /\ wl_userId w = userId
     /\ wl_eventId w = eventId).
Proof.
  split.
  - intro H. rewrite (join_duplicate _ _ db eventId userId now H). reflexivity.
  - intros Hexp [ev Hev].
    assert (Hno : forall w, In w (waitingList db) -> ~ active_entry_of userId eventId w).
    { intros w Hin [Hu [He Hs]]. apply Hs. apply Hexp; assumption. }
    rewrite (join_passes _ _ db eventId userId now ev Hno Hev).
    destruct (_ >? 0); do 3 eexists; repeat split; reflexivity.
Qed.

(** C3. When both preconditions hold, the join inserts an OFFERED entry
    expiring at [now + TICKET_OFFER] and schedules [expireOffer] for that
    entry after [TICKET_OFFER] exactly when purchased tickets plus active
    offers are below [totalTickets]; otherwise it inserts a WAITING entry
    without expiry time and schedules nothing. *)
Theorem joinWaitingList_offer_or_wait
  (db : Db) (eventId : Id) (userId : string) (now : Z) (ev : Event) :
  get_event db eventId = Some ev ->
  (forall w, In w (waitingList db) -> ~ active_entry_of userId eventId w) ->
  0 <= now ->
  let reserved :=
    Z.of_nat (count_if (sold_ticket_of eventId) (tickets db))
    + Z.of_nat (count_if (active_offer_of eventId now) (waitingList db)) in
  (reserved < totalTickets ev ->
   exists r db',
     join eventId userId now db = (inr r, db')
     /\ waitingList db' =
          waitingList db
          ++ [mkWaitingListEntry (nextId db) eventId userId OFFERED
                (Some (now + TICKET_OFFER))]
     /\ scheduled db' =
          scheduled db
          ++ [mkScheduledJob now TICKET_OFFER internal_waitingList_expireOffer
                (nextId db) eventId]
     /\ events db' = events db /\ tickets db' = tickets db)
  /\
  (totalTickets ev <= reserved ->
   exists r db',
     join eventId userId now db = (inr r, db')
     /\ waitingList db' =
          waitingList db ++ [mkWaitingListEntry (nextId db) eventId userId WAITING None]
     /\ scheduled db' = scheduled db
     /\ events db' = events db /\ tickets db' = tickets db).
Proof.
  intros Hev Hno Hnow reserved. subst reserved.
  rewrite <- (purchased_count_spec db eventId).
  rewrite <- (active_offers_spec db eventId now Hnow).
  rewrite (join_passes _ _ db eventId userId now ev Hno Hev).
  split; intro Hcap.
  - replace (_ >? 0) with true by (symmetry; rewrite Z.gtb_ltb; apply Z.ltb_lt; lia).
    do 2 eexists. repeat split; reflexivity.
  - replace (_ >? 0) with false by (symmetry; rewrite Z.gtb_ltb; apply Z.ltb_ge; lia).
    do 2 eexists. repeat split; reflexivity.
Qed.

(** Every run of the handler ends in one of four ways. *)
Lemma join_outcome (db : Db) (eventId : Id) (userId : string) (now : Z) :
  join eventId userId now db = (inl AlreadyInWaitingList, db)
  \/ join eventId userId now db = (inl EventNotFound, db)
  \/ (join eventId userId now db =
        (inr (mkJoinResult true OFFERED (offered_message TICKET_OFFER Number_toString)),
         mkDb (events db) (tickets db)
           (waitingList db
            ++ [mkWaitingListEntry (nextId db) eventId userId OFFERED
                  (Some (now + TICKET_OFFER))])
           (scheduled db
            ++ [mkScheduledJob now TICKET_OFFER internal_waitingList_expireOffer
                  (nextId db) eventId])
           (S (nextId db)))
      /\ exists a, checkAvailability eventId now db = inr a /\ available a = true)
  \/ (join eventId userId now db =
        (inr (mkJoinResult true WAITING waiting_message),
         mkDb (events db) (tickets db)
           (waitingList db
            ++ [mkWaitingListEntry (nextId db) eventId userId WAITING None])
           (scheduled db)
           (S (nextId db)))
      /\ exists a, checkAvailability eventId now db = inr a /\ available a = false).
Proof.
  unfold joinWaitingList, bind.
  destruct (hd_error _) as [x|]; [left; reflexivity|].
  unfold db_get_event, runQuery.
  destruct (get_event db eventId) as [ev|] eqn:Hev; [|right; left; reflexivity].
  cbv beta iota.
  destruct (checkAvailability eventId now db) as [err|a] eqn:Hca.
  - unfold checkAvailability in Hca. rewrite Hev in Hca. discriminate Hca.
  - destruct (available a) eqn:Hav; right; right; [left|right];
      (split; [reflexivity|exists a; split; [reflexivity|exact Hav]]).
Qed.

(** C6. A failing join leaves the database as it found it: no entry is
    inserted and no task is scheduled. A successful join appends exactly one
    entry, and the [expireOffer] task for that entry is scheduled exactly
    when the entry is OFFERED. *)
Theorem joinWaitingList_no_partial_write
  (db : Db) (eventId : Id) (userId : string) (now : Z) :
  (forall err db',
     join eventId userId now db = (inl err, db') ->
     db' = db /\ (err = AlreadyInWaitingList \/ err = EventNotFound))
  /\
  (forall r db',
     join eventId userId now db = (inr r, db') ->
     exists w,
       waitingList db' = waitingList db ++ [w]
       /\ ((wl_status w = OFFERED
            /\ scheduled db' =
                 scheduled db
                 ++ [mkScheduledJob now TICKET_OFFER internal_waitingList_expireOffer
                       (wl_id w) eventId])
           \/ (wl_status w = WAITING /\ scheduled db' = scheduled db))).
Proof.
  destruct (join_outcome db eventId userId now)
    as [H|[H|[[H _]|[H _]]]]; rewrite H; split;
    intros x db' Heq; inversion Heq; subst; clear Heq.
  - split; [reflexivity|left; reflexivity].
  - split; [reflexivity|right; reflexivity].
  - eexists. split; [reflexivity|]. left. split; reflexivity.
  - eexists. split; [reflexivity|]. right. split; reflexivity.
Qed.

(** C7, as the handlers have it. For an event id that is not in the events
    table, both availability queries fail with the event-not-found error and
    leave the database alone; [joinWaitingList] fails without writing, with
    the event-not-found error when the pair has no active entry and with the
    already-in-waiting-list error when it has one. *)
Theorem missing_event_rejected
  (db : Db) (eventId : Id) (userId : string) (now : Z) :
  get_event db eventId = None ->
  checkAvailability eventId now db = inl EventNotFound
  /\ getEventAvailability eventId now db = inl EventNotFound
  /\ snd (runQuery (checkAvailability eventId now) db) = db
  /\ snd (runQuery (getEventAvailability eventId now) db) = db
  /\ ((forall w, In w (waitingList db) -> ~ active_entry_of userId eventId w) ->
      join eventId userId now db = (inl EventNotFound, db))
  /\ ((exists w, In w (waitingList db) /\ active_entry_of userId eventId w) ->
      join eventId userId now db = (inl AlreadyInWaitingList, db)).
Proof.
  intro Hev. unfold checkAvailability, getEventAvailability. rewrite Hev.
  repeat split.
  - intro Hno. apply join_missing_event; assumption.
  - intro Hact. apply join_duplicate; assumption.
Qed.

(** C9. A successful join returns the status of the entry it inserted,
    OFFERED when [checkAvailability] found a ticket available and WAITING
    otherwise; on the OFFERED path the message spells the offer duration in
    minutes, [TICKET_OFFER / 60000]. *)
Theorem joinWaitingList_result
  (db : Db) (eventId : Id) (userId : string) (now : Z) (r : JoinResult) (db' : Db) :
  join eventId userId now db = (inr r, db') ->
  exists w a,
    waitingList db' = waitingList db ++ [w]
    /\ checkAvailability eventId now db = inr a
    /\ status r = wl_status w
    /\ wl_status w = (if available a then OFFERED else WAITING)
    /\ success r = true
    /\ (wl_status w = OFFERED ->
        message r =
          String.append "Ticket offered - you have "
            (String.append
               (Number_toString (inject_Z TICKET_OFFER / inject_Z 60000)%Q)
               " minutes to purchase")).
Proof.
  intro Hjoin.
  destruct (join_outcome db eventId userId now)
    as [H|[H|[[H [a [Ha Hav]]]|[H [a [Ha Hav]]]]]];
    rewrite H in Hjoin; inversion Hjoin; subst; clear Hjoin.
  - eexists; exists a. rewrite Hav. repeat split; try reflexivity; exact Ha.
  - eexists; exists a. rewrite Hav. repeat split; try reflexivity; try exact Ha.
    simpl. discriminate.
Qed.

End JoinClaims.

Lemma joinWaitingList_duplicate_guard_witness :
  fst (joinWaitingList sample_TICKET_OFFER integral_toString 0 "alice" 2000 db_full)
  = inl AlreadyInWaitingList
  /\
  exists r db' w,
    joinWaitingList sample_TICKET_OFFER integral_toString 0 "alice" 2000000 db_lapsed
    = (inr r, db')
    /\ waitingList db' = waitingList db_lapsed ++ [w]
    /\ wl_id w = nextId db_lapsed
    /\ wl_userId w = "alice"%string
    /\ wl_eventId w = 0%nat.
Proof.
  split.
  - apply (proj1 (joinWaitingList_duplicate_guard sample_TICKET_OFFER integral_toString
                    db_full 0 "alice" 2000)).
    exists sample_offer. split; [left; reflexivity|].
    repeat split; simpl; discriminate.
  - apply (proj2 (joinWaitingList_duplicate_guard sample_TICKET_OFFER integral_toString
                    db_lapsed 0 "alice" 2000000)).
    + intros w [<-|[]] _ _. reflexivity.
    + exists sample_event. reflexivity.
Defined.

Lemma joinWaitingList_offer_or_wait_witness :
  (exists r db',
     joinWaitingList sample_TICKET_OFFER integral_toString 0 "bob" 1000 db_fresh
     = (inr r, db')
     /\ waitingList db' =
          [mkWaitingListEntry 1 0 "bob" OFFERED (Some (1000 + sample_TICKET_OFFER))]
     /\ scheduled db' =
          [mkScheduledJob 1000 sample_TICKET_OFFER internal_waitingList_expireOffer 1 0]
     /\ events db' = events db_fresh /\ tickets db' = tickets db_fresh)
  /\
  (exists r db',
     joinWaitingList sample_TICKET_OFFER integral_toString 0 "bob" 2000 db_full
     = (inr r, db')
     /\ waitingList db' = [sample_offer; mkWaitingListEntry 3 0 "bob" WAITING None]
     /\ scheduled db' = scheduled db_full
     /\ events db' = events db_full /\ tickets db' = tickets db_full).
Proof.
  split.
  - apply (proj1 (joinWaitingList_offer_or_wait sample_TICKET_OFFER integral_toString
                    db_fresh 0 "bob" 1000 sample_event eq_refl
                    (fun w (H : In w []) _ => match H with end)
                    ltac:(lia))).
    vm_compute. reflexivity.
  - refine (proj2 (joinWaitingList_offer_or_wait sample_TICKET_OFFER integral_toString
                     db_full 0 "bob" 2000 sample_event eq_refl _ _) _).
    + intros w [<-|[]] [Hu _]. discriminate Hu.
    + lia.
    + vm_compute. discriminate.
Defined.

Lemma joinWaitingList_no_partial_write_witness :
  (db_dangling = db_dangling
   /\ (AlreadyInWaitingList = AlreadyInWaitingList
       \/ AlreadyInWaitingList = EventNotFound))
  /\
  exists w,
    waitingList db_fresh_bob = waitingList db_fresh ++ [w]
    /\ ((wl_status w = OFFERED
         /\ scheduled db_fresh_bob =
              scheduled db_fresh
              ++ [mkScheduledJob 1000 sample_TICKET_OFFER
                    internal_waitingList_expireOffer (wl_id w) 0])
        \/ (wl_status w = WAITING /\ scheduled db_fresh_bob = scheduled db_fresh)).
Proof.
  split.
  - apply (proj1 (joinWaitingList_no_partial_write sample_TICKET_OFFER integral_toString
                    db_dangling 7 "alice" 5000) AlreadyInWaitingList db_dangling).
    reflexivity.
  - apply (proj2 (joinWaitingList_no_partial_write sample_TICKET_OFFER integral_toString
                    db_fresh 0 "bob" 1000)
             (mkJoinResult true OFFERED "Ticket offered - you have 30 minutes to purchase")
             db_fresh_bob).
    vm_compute. reflexivity.
Defined.

(** The claim of C7 as worded fails for [joinWaitingList]: on [db_dangling]
    the event 7 does not exist, yet alice's join is refused by the duplicate
    guard, which runs first. *)
Lemma join_missing_event_reports_duplicate :
  get_event db_dangling 7 = None
  /\ fst (joinWaitingList sample_TICKET_OFFER integral_toString 7 "alice" 5000 db_dangling)
     = inl AlreadyInWaitingList
  /\ fst (joinWaitingList sample_TICKET_OFFER integral_toString 7 "alice" 5000 db_dangling)
     <> inl EventNotFound.
Proof. vm_compute. repeat split. discriminate. Qed.

Lemma missing_event_rejected_witness :
  checkAvailability 7 5000 db_dangling = inl EventNotFound
  /\ getEventAvailability 7 5000 db_dangling = inl EventNotFound
  /\ snd (runQuery (checkAvailability 7 5000) db_dangling) = db_dangling
  /\ snd (runQuery (getEventAvailability 7 5000) db_dangling) = db_dangling
  /\ ((forall w, In w (waitingList db_dangling) -> ~ active_entry_of "alice" 7 w) ->
      joinWaitingList sample_TICKET_OFFER integral_toString 7 "alice" 5000 db_dangling
      = (inl EventNotFound, db_dangling))
  /\ ((exists w, In w (waitingList db_dangling) /\ active_entry_of "alice" 7 w) ->
      joinWaitingList sample_TICKET_OFFER integral_toString 7 "alice" 5000 db_dangling
      = (inl AlreadyInWaitingList, db_dangling)).
Proof.
  apply (missing_event_rejected sample_TICKET_OFFER integral_toString
           db_dangling 7 "alice" 5000).
  reflexivity.
Defined.

Lemma joinWaitingList_result_witness :
  exists w a,
    waitingList db_fresh_bob = waitingList db_fresh ++ [w]
    /\ checkAvailability 0 1000 db_fresh = inr a
    /\ OFFERED = wl_status w
    /\ wl_status w = (if available a then OFFERED else WAITING)
    /\ true = true
    /\ (wl_status w = OFFERED ->
        "Ticket offered - you have 30 minutes to purchase"%string =
          String.append "Ticket offered - you have "
            (String.append
               (integral_toString (inject_Z sample_TICKET_OFFER / inject_Z 60000)%Q)
               " minutes to purchase")).
Proof.
  apply (joinWaitingList_result sample_TICKET_OFFER integral_toString
           db_fresh 0 "bob" 1000
           (mkJoinResult true OFFERED "Ticket offered - you have 30 minutes to purchase")
           db_fresh_bob).
  vm_compute. reflexivity.
Defined.

(** ** Capacity ledger *)

(** The record [getEventAvailability] returns, in terms of the two counts. *)
Lemma getEventAvailability_value (db : Db) (eventId : Id) (ev : Event) (now : Z) :
  get_event db eventId = Some ev ->
  0 <= now ->
  getEventAvailability eventId now db =
    inr (mkEventAvailability
           (Z.of_nat (count_if (sold_ticket_of eventId) (tickets db))
            + Z.of_nat (count_if (active_offer_of eventId now) (waitingList db))
            >=? totalTickets ev)
           (totalTickets ev)
           (Z.of_nat (count_if (sold_ticket_of eventId) (tickets db)))
           (Z.of_nat (count_if (active_offer_of eventId now) (waitingList db)))
           (Z.max 0
              (totalTickets ev
               - (Z.of_nat (count_if (sold_ticket_of eventId) (tickets db))
                  + Z.of_nat (count_if (active_offer_of eventId now) (waitingList db)))))).
Proof.
  intros Hev Hnow. unfold getEventAvailability. rewrite Hev.
  rewrite (purchased_count_spec db eventId).
  rewrite (active_offers_spec db eventId now Hnow).
  reflexivity.
Qed.

(** C2. For an existing event and a clock [now] (milliseconds since the
    epoch, hence not negative), [getEventAvailability] reports the number of the event's tickets that are valid or used, the
    number of the event's OFFERED entries expiring strictly after [now], the
    remaining tickets clamped at zero, and whether the reserved total reaches
    [totalTickets]. *)
Theorem getEventAvailability_ledger
  (db : Db) (eventId : Id) (ev : Event) (now : Z) :
  get_event db eventId = Some ev ->
  0 <= now ->
  exists r,
    getEventAvailability eventId now db = inr r
    /\ ea_purchasedCount r = Z.of_nat (count_if (sold_ticket_of eventId) (tickets db))
    /\ ea_activeOffers r
       = Z.of_nat (count_if (active_offer_of eventId now) (waitingList db))
    /\ remainingTickets r
       = Z.max 0 (totalTickets ev - (ea_purchasedCount r + ea_activeOffers r))
    /\ (isSoldOut r = true <-> totalTickets ev <= ea_purchasedCount r + ea_activeOffers r)
    /\ ea_totalTickets r = totalTickets ev.
Proof.
  intros Hev Hnow. rewrite (getEventAvailability_value db eventId ev now Hev Hnow).
  eexists. split; [reflexivity|]. simpl.
  repeat split; try reflexivity.
  - intro H. apply Z.geb_le in H. exact H.
  - intro H. apply Z.geb_le. exact H.
Qed.

Lemma getEventAvailability_ledger_witness :
  exists r,
    getEventAvailability 0 2000 db_full = inr r
    /\ ea_purchasedCount r = Z.of_nat (count_if (sold_ticket_of 0) (tickets db_full))
    /\ ea_activeOffers r
       = Z.of_nat (count_if (active_offer_of 0 2000) (waitingList db_full))
    /\ remainingTickets r
       = Z.max 0 (totalTickets sample_event - (ea_purchasedCount r + ea_activeOffers r))
    /\ (isSoldOut r = true
        <-> totalTickets sample_event <= ea_purchasedCount r + ea_activeOffers r)
    /\ ea_totalTickets r = totalTickets sample_event.
Proof.
  apply (getEventAvailability_ledger db_full 0 sample_event 2000).
  - reflexivity.
  - lia.
Defined.

(** [checkAvailability] computes the same two counts and subtracts them from
    the capacity without clamping. *)
Lemma checkAvailability_ledger (db : Db) (eventId : Id) (ev : Event) (now : Z) :
  get_event db eventId = Some ev ->
  0 <= now ->
  exists r,
    checkAvailability eventId now db = inr r
    /\ ca_purchasedCount r = Z.of_nat (count_if (sold_ticket_of eventId) (tickets db))
    /\ ca_activeOffers r
       = Z.of_nat (count_if (active_offer_of eventId now) (waitingList db))
    /\ availableSpots r = totalTickets ev - (ca_purchasedCount r + ca_activeOffers r)
    /\ (available r = true <-> ca_purchasedCount r + ca_activeOffers r < totalTickets ev).
Proof.
  intros Hev Hnow. unfold checkAvailability. rewrite Hev.
  eexists. split; [reflexivity|]. simpl.
  rewrite (purchased_count_spec db eventId).
  rewrite (active_offers_spec db eventId now Hnow).
  repeat split; try reflexivity.
  - intro H. rewrite Z.gtb_ltb in H. apply Z.ltb_lt in H. lia.
  - intro H. rewrite Z.gtb_ltb. apply Z.ltb_lt. lia.
Qed.

(** C4, at the state [db_shrunk]. Two offers are outstanding against a
    capacity of one: [checkAvailability] reports minus one available spot,
    where [getEventAvailability] reports zero remaining tickets for the same
    snapshot. *)
Theorem checkAvailability_spots_below_zero :
  get_event db_shrunk 0 = Some
    (mkEvent 0 "Concert" "An evening of music" "Town hall" 1790000000000
       (inject_Z 25) 1 "seller" None)
  /\ checkAvailability 0 3000 db_shrunk = inr (mkAvailability false (-1) 1 0 2)
  /\ getEventAvailability 0 3000 db_shrunk = inr (mkEventAvailability true 1 0 2 0)
  /\ Z.max 0 (1 - (0 + 2)) = 0.
Proof. vm_compute. repeat split. Qed.

(** ** Updating an event *)

Lemma get_event_patched (l : list Event) (eventId : Id) (u : EventUpdates) (ev : Event) :
  find (fun e => Nat.eqb (ev_id e) eventId) l = Some ev ->
  find (fun e => Nat.eqb (ev_id e) eventId)
    (map (fun e => if Nat.eqb (ev_id e) eventId then apply_updates u e else e) l)
  = Some (apply_updates u ev).
Proof.
  induction l as [|x l IH]; simpl; [discriminate|].
  destruct (Nat.eqb (ev_id x) eventId) eqn:Hx; simpl; rewrite Hx.
  - intro H. inversion H. reflexivity.
  - exact IH.
Qed.

Lemma get_event_patched_other
  (l : list Event) (eventId other : Id) (u : EventUpdates) :
  other <> eventId ->
  find (fun e => Nat.eqb (ev_id e) other)
    (map (fun e => if Nat.eqb (ev_id e) eventId then apply_updates u e else e) l)
  = find (fun e => Nat.eqb (ev_id e) other) l.
Proof.
  intro Hne. induction l as [|x l IH]; simpl; [reflexivity|].
  destruct (Nat.eqb (ev_id x) eventId) eqn:Hx; simpl.
  - apply Nat.eqb_eq in Hx.
    replace (Nat.eqb (ev_id x) other) with false
      by (symmetry; apply Nat.eqb_neq; congruence).
    exact IH.
  - rewrite IH. reflexivity.
Qed.

(** C8. For an existing event, [updateEvent] throws the capacity-reduction
    error exactly when the new [totalTickets] is strictly below the number of
    the event's tickets that are valid or used; the throw leaves the database
    as it was, and a successful update stores the given fields on the event
    and touches nothing else. *)
Theorem updateEvent_capacity_guard
  (db : Db) (eventId : Id) (ev : Event) (u : EventUpdates) :
  get_event db eventId = Some ev ->
  let sold := count_if (sold_ticket_of eventId) (tickets db) in
  ((exists n db', updateEvent eventId u db = (inl (CannotReduceTotalTickets n), db'))
   <-> up_totalTickets u < Z.of_nat sold)
  /\
  (up_totalTickets u < Z.of_nat sold ->
   updateEvent eventId u db = (inl (CannotReduceTotalTickets sold), db))
  /\
  (Z.of_nat sold <= up_totalTickets u ->
   exists db' ev',
     updateEvent eventId u db = (inr eventId, db')
     /\ get_event db' eventId = Some ev'
     /\ name ev' = up_name u
     /\ description ev' = up_description u
     /\ location ev' = up_location u
     /\ eventDate ev' = up_eventDate u
     /\ price ev' = up_price u
     /\ totalTickets ev' = up_totalTickets u
     /\ ev_id ev' = ev_id ev
     /\ ev_userId ev' = ev_userId ev
     /\ is_cancelled ev' = is_cancelled ev
     /\ (forall other, other <> eventId -> get_event db' other = get_event db other)
     /\ tickets db' = tickets db
     /\ waitingList db' = waitingList db
     /\ scheduled db' = scheduled db).
Proof.
  intros Hev sold.
  assert (Hrun :
    updateEvent eventId u db =
      if up_totalTickets u <? Z.of_nat sold
      then (inl (CannotReduceTotalTickets sold), db)
      else (inr eventId,
            mkDb (map (fun e => if Nat.eqb (ev_id e) eventId
                                then apply_updates u e else e) (events db))
              (tickets db) (waitingList db) (scheduled db) (nextId db))).
  { unfold updateEvent, bind, db_get_event. rewrite Hev. cbv beta iota.
    subst sold. rewrite <- (purchased_count_spec db eventId).
    unfold is_purchased, TICKET_STATUS_VALID, TICKET_STATUS_USED.
    destruct (_ <? _); reflexivity. }
  rewrite Hrun. destruct (up_totalTickets u <? Z.of_nat sold) eqn:Hlt.
  - apply Z.ltb_lt in Hlt. split; [|split].
    + split; [intros _; exact Hlt|intros _; do 2 eexists; reflexivity].
    + intros _. reflexivity.
    + intro Hge. exfalso. lia.
  - apply Z.ltb_ge in Hlt. split; [|split].
    + split; [intros [n [db' H]]; discriminate H|intro H; exfalso; lia].
    + intro H. exfalso. lia.
    + intros _. eexists. exists (apply_updates u ev).
      split; [reflexivity|]. split.
      { unfold get_event. simpl. apply get_event_patched. exact Hev. }
      repeat split; try reflexivity.
      intros other Hne. unfold get_event. simpl.
      apply get_event_patched_other. exact Hne.
Qed.

Lemma updateEvent_capacity_guard_witness :
  updateEvent 0 (sample_updates 0) db_full
  = (inl (CannotReduceTotalTickets 1), db_full)
  /\
  exists db' ev',
    updateEvent 0 (sample_updates 5) db_full = (inr 0%nat, db')
    /\ get_event db' 0 = Some ev'
    /\ name ev' = "Gala"%string
    /\ description ev' = "A longer evening"%string
    /\ location ev' = "Opera house"%string
    /\ eventDate ev' = 1790000600000
    /\ price ev' = inject_Z 30
    /\ totalTickets ev' = 5
    /\ ev_id ev' = 0%nat
    /\ ev_userId ev' = "seller"%string
    /\ is_cancelled ev' = None
    /\ (forall other, other <> 0%nat -> get_event db' other = get_event db_full other)
    /\ tickets db' = tickets db_full
    /\ waitingList db' = waitingList db_full
    /\ scheduled db' = scheduled db_full.
Proof.
  split.
  - refine (proj1 (proj2 (updateEvent_capacity_guard db_full 0 sample_event
                            (sample_updates 0) eq_refl)) _).
    vm_compute. reflexivity.
  - refine (proj2 (proj2 (updateEvent_capacity_guard db_full 0 sample_event
                            (sample_updates 5) eq_refl)) _).
    vm_compute. discriminate.
Defined.

(** ** Offers without an expiry time *)

Lemma filter_drop_middle {A : Type} (p q : A -> bool) (l1 l2 : list A) (x : A) :
  q x = false ->
  filter q (filter p (l1 ++ x :: l2)) = filter q (filter p (l1 ++ l2)).
Proof.
  intro Hq. rewrite !filter_app. simpl.
  destruct (p x); simpl; [rewrite Hq|]; reflexivity.
Qed.

(** C10. At a non-negative clock, an OFFERED entry without [offerExpiresAt]
    fails the expiry test of both availability handlers, so both return
    exactly what they return on the waiting list with that entry taken out;
    and for an existing event both do return a result, whose active-offer
    count is the count over the remaining entries. *)
Theorem offer_without_expiry_not_counted
  (db : Db) (eventId : Id) (now : Z) (w : WaitingListEntry)
  (l1 l2 : list WaitingListEntry) :
  0 <= now ->
  wl_status w = OFFERED ->
  offerExpiresAt w = None ->
  waitingList db = l1 ++ w :: l2 ->
  offer_unexpired now w = false
  /\ checkAvailability eventId now db
     = checkAvailability eventId now (set_waitingList (l1 ++ l2) db)
  /\ getEventAvailability eventId now db
     = getEventAvailability eventId now (set_waitingList (l1 ++ l2) db)
  /\ (forall ev, get_event db eventId = Some ev ->
      exists r r',
        checkAvailability eventId now db = inr r
        /\ getEventAvailability eventId now db = inr r'
        /\ ca_activeOffers r
           = Z.of_nat (count_if (active_offer_of eventId now) (l1 ++ l2))
        /\ ea_activeOffers r'
           = Z.of_nat (count_if (active_offer_of eventId now) (l1 ++ l2))).
Proof.
  intros Hnow Hst Hexp Hwl.
  assert (Hw : offer_unexpired now w = false).
  { unfold offer_unexpired. rewrite Hexp. rewrite Z.gtb_ltb. apply Z.ltb_ge. exact Hnow. }
  assert (Hoffers :
    filter (offer_unexpired now) (waitingList_by_event_status db eventId OFFERED)
    = filter (offer_unexpired now)
        (waitingList_by_event_status (set_waitingList (l1 ++ l2) db) eventId OFFERED)).
  { unfold waitingList_by_event_status. rewrite Hwl. simpl.
    apply filter_drop_middle. exact Hw. }
  assert (Hcheck : checkAvailability eventId now db
                   = checkAvailability eventId now (set_waitingList (l1 ++ l2) db)).
  { unfold checkAvailability. rewrite Hoffers. reflexivity. }
  assert (Hget : getEventAvailability eventId now db
                 = getEventAvailability eventId now (set_waitingList (l1 ++ l2) db)).
  { unfold getEventAvailability. rewrite Hoffers. reflexivity. }
  split; [exact Hw|]. split; [exact Hcheck|]. split; [exact Hget|].
  intros ev Hev.
  destruct (checkAvailability_ledger (set_waitingList (l1 ++ l2) db) eventId ev now
              Hev Hnow) as [r [Hr [_ [Ha _]]]].
  exists r. eexists. rewrite Hcheck, Hget.
  rewrite (getEventAvailability_value (set_waitingList (l1 ++ l2) db) eventId ev now
             Hev Hnow).
  repeat split; try assumption; reflexivity.
Qed.

Lemma offer_without_expiry_not_counted_witness :
  offer_unexpired 5000 (mkWaitingListEntry 1 0 "alice" OFFERED None) = false
  /\ checkAvailability 0 5000 db_no_expiry
     = checkAvailability 0 5000 (set_waitingList ([] ++ []) db_no_expiry)
  /\ getEventAvailability 0 5000 db_no_expiry
     = getEventAvailability 0 5000 (set_waitingList ([] ++ []) db_no_expiry)
  /\ (forall ev, get_event db_no_expiry 0 = Some ev ->
      exists r r',
        checkAvailability 0 5000 db_no_expiry = inr r
        /\ getEventAvailability 0 5000 db_no_expiry = inr r'
        /\ ca_activeOffers r = Z.of_nat (count_if (active_offer_of 0 5000) ([] ++ []))
        /\ ea_activeOffers r' = Z.of_nat (count_if (active_offer_of 0 5000) ([] ++ []))).
Proof.
  apply (offer_without_expiry_not_counted db_no_expiry 0 5000
           (mkWaitingListEntry 1 0 "alice" OFFERED None) [] []).
  - lia.
  - reflexivity.
  - reflexivity.
  - reflexivity.
Defined.

(** ** The concrete capacity case *)

Lemma filter_andb_split {A : Type} (p q : A -> bool) (l : list A) :
  filter (fun x => p x && q x) l = filter q (filter p l).
Proof.
  induction l as [|x l IH]; simpl; [reflexivity|].
  destruct (p x); simpl; [destruct (q x)|]; rewrite IH; reflexivity.
Qed.

Lemma filter_map_preserved {A : Type} (p : A -> bool) (f : A -> A) (l : list A) :
  (forall x, p (f x) = p x) -> filter p (map f l) = map f (filter p l).
Proof.
  intro H. induction l as [|x l IH]; simpl; [reflexivity|].
  rewrite H. destruct (p x); simpl; rewrite IH; reflexivity.
Qed.

Lemma by_event_status_of_event (db : Db) (eventId : Id) (st : WAITING_LIST_STATUS) :
  waitingList_by_event_status db eventId st
  = filter (fun w => status_eqb (wl_status w) st) (waitingList_of_event db eventId).
Proof. unfold waitingList_by_event_status, waitingList_of_event. apply filter_andb_split. Qed.

(** Marking the entries that carry one id as EXPIRED commutes with selecting
    the entries of an event. *)
Lemma waitingList_of_event_expired (db : Db) (eventId id : Id) :
  waitingList_of_event
    (mkDb (events db) (tickets db)
       (map (fun x => if Nat.eqb (wl_id x) id then mark_expired x else x) (waitingList db))
       (scheduled db) (nextId db))
    eventId
  = map (fun x => if Nat.eqb (wl_id x) id then mark_expired x else x)
      (waitingList_of_event db eventId).
Proof.
  unfold waitingList_of_event. simpl. apply filter_map_preserved.
  intro x. destruct (Nat.eqb (wl_id x) id); reflexivity.
Qed.

Section ConcreteCase.

Variable TICKET_OFFER : Z.

(** C5. Capacity two, one ticket of the event and it is valid, one
    waiting-list entry of the event and it is OFFERED with an expiry time
    after [now]: [checkAvailability] answers not available, zero spots. Once
    [expireOffer] has run for that entry, [checkAvailability] at any time
    after the expiry answers one available spot. *)
Theorem capacity_two_one_sold_one_offered
  (db : Db) (eventId : Id) (ev : Event) (tk : Ticket) (w : WaitingListEntry)
  (t now fired now' : Z) :
  get_event db eventId = Some ev ->
  totalTickets ev = 2 ->
  tickets_by_event db eventId = [tk] ->
  tk_status tk = "valid"%string ->
  waitingList_of_event db eventId = [w] ->
  wl_status w = OFFERED ->
  offerExpiresAt w = Some t ->
  get_waitingListEntry db (wl_id w) = Some w ->
  now < t ->
  t < now' ->
  (exists r,
     checkAvailability eventId now db = inr r
     /\ available r = false /\ availableSpots r = 0)
  /\
  (exists db' r',
     expireOffer TICKET_OFFER (wl_id w) eventId fired db = (inr tt, db')
     /\ waitingList_of_event db' eventId = [mark_expired w]
     /\ checkAvailability eventId now' db' = inr r'
     /\ availableSpots r' = 1 /\ available r' = true).
Proof.
  intros Hev Htot Htk Hvalid Hwl Hst Hexp Hget Hnow Hlater.
  assert (Hsold : filter is_purchased (tickets_by_event db eventId) = [tk]).
  { rewrite Htk. simpl. unfold is_purchased. rewrite Hvalid. reflexivity. }
  split.
  - unfold checkAvailability. rewrite Hev, Hsold, by_event_status_of_event, Hwl.
    simpl. rewrite Hst. simpl. unfold offer_unexpired. rewrite Hexp.
    replace (t >? now) with true by (symmetry; rewrite Z.gtb_ltb; apply Z.ltb_lt; lia).
    simpl. rewrite Htot. eexists. split; [reflexivity|]. split; reflexivity.
  - set (db1 := mkDb (events db) (tickets db)
                  (map (fun x => if Nat.eqb (wl_id x) (wl_id w) then mark_expired x else x)
                     (waitingList db))
                  (scheduled db) (nextId db)).
    assert (Hwl1 : waitingList_of_event db1 eventId = [mark_expired w]).
    { unfold db1. rewrite waitingList_of_event_expired, Hwl. simpl.
      rewrite Nat.eqb_refl. reflexivity. }
    assert (Hnone : forall st, st <> EXPIRED ->
                      waitingList_by_event_status db1 eventId st = []).
    { intros st Hne. rewrite by_event_status_of_event, Hwl1. simpl.
      destruct st; try reflexivity. exfalso. apply Hne. reflexivity. }
    assert (Hev1 : get_event db1 eventId = Some ev) by exact Hev.
    assert (Hsold1 : filter is_purchased (tickets_by_event db1 eventId) = [tk])
      by exact Hsold.
    assert (Hrun : expireOffer TICKET_OFFER (wl_id w) eventId fired db = (inr tt, db1)).
    { unfold expireOffer. rewrite Hget, Hev, Hst. simpl status_eqb. cbv iota.
      unfold bind, patch_waitingList. fold db1.
      unfold promote, bind, runQuery, getEventAvailability.
      rewrite Hev1, Hsold1, (Hnone OFFERED) by discriminate.
      simpl. rewrite Htot. simpl.
      rewrite (Hnone WAITING) by discriminate. reflexivity. }
    exists db1. eexists. split; [exact Hrun|]. split; [exact Hwl1|].
    unfold checkAvailability.
    rewrite Hev1, Hsold1, (Hnone OFFERED) by discriminate.
    simpl. rewrite Htot. split; [reflexivity|]. split; reflexivity.
Qed.

End ConcreteCase.

Lemma capacity_two_one_sold_one_offered_witness :
  (exists r,
     checkAvailability 0 2000 db_full = inr r
     /\ available r = false /\ availableSpots r = 0)
  /\
  (exists db' r',
     expireOffer sample_TICKET_OFFER 2 0 1801000 db_full = (inr tt, db')
     /\ waitingList_of_event db' 0 = [mark_expired sample_offer]
     /\ checkAvailability 0 1900000 db' = inr r'
     /\ availableSpots r' = 1 /\ available r' = true).
Proof.
  apply (capacity_two_one_sold_one_offered sample_TICKET_OFFER db_full 0 sample_event
           (mkTicket 1 0 "valid") sample_offer 1801000 2000 1801000 1900000);
    try reflexivity; lia.
Defined.

(** ** Runs on the sample states *)

Example join_fresh_offers :
  joinWaitingList sample_TICKET_OFFER integral_toString 0 "bob" 1000 db_fresh
  = (inr (mkJoinResult true OFFERED "Ticket offered - you have 30 minutes to purchase"),
     db_fresh_bob).
Proof. vm_compute. reflexivity. Qed.

Example join_full_waits :
  joinWaitingList sample_TICKET_OFFER integral_toString 0 "bob" 2000 db_full
  = (inr (mkJoinResult true WAITING waiting_message), db_queue).
Proof. vm_compute. reflexivity. Qed.

Example expire_full_lapses :
  expireOffer sample_TICKET_OFFER 2 0 1801000 db_full = (inr tt, db_lapsed).
Proof. vm_compute. reflexivity. Qed.

Example expire_twice_same :
  expireOffer sample_TICKET_OFFER 2 0 1801005 db_lapsed = (inr tt, db_lapsed).
Proof. vm_compute. reflexivity. Qed.

Example expire_queue_promotes :
  expireOffer sample_TICKET_OFFER 2 0 1801000 db_queue
  = (inr tt,
     mkDb [sample_event]
       [mkTicket 1 0 "valid"]
       [mkWaitingListEntry 2 0 "alice" EXPIRED (Some 1801000);
        mkWaitingListEntry 3 0 "bob" OFFERED (Some 3601000)]
       [mkScheduledJob 1000 sample_TICKET_OFFER internal_waitingList_expireOffer 2 0;
        mkScheduledJob 1801000 sample_TICKET_OFFER internal_waitingList_expireOffer 3 0]
       4).
Proof. vm_compute. reflexivity. Qed.

Example update_below_sold_message :
  error_message (CannotReduceTotalTickets 1)
  = "Cannot reduce total tickets below 1 (number of tickets already sold)"%string.
Proof. reflexivity. Qed.

(** ** List facts for the remaining handlers *)

Lemma hd_error_filter_find {A : Type} (p : A -> bool) (l : list A) :
  hd_error (filter p l) = find p l.
Proof.
  induction l as [|x l IH]; simpl; [reflexivity|].
  destruct (p x); [reflexivity|exact IH].
Qed.

Lemma find_map_preserved {A : Type} (p : A -> bool) (f : A -> A) (l : list A) :
  (forall x, p (f x) = p x) -> find p (map f l) = option_map f (find p l).
Proof.
  intro H. induction l as [|x l IH]; simpl; [reflexivity|].
  rewrite H. destruct (p x); [reflexivity|exact IH].
Qed.

Lemma find_app {A : Type} (p : A -> bool) (l1 l2 : list A) :
  find p (l1 ++ l2) = match find p l1 with Some x => Some x | None => find p l2 end.
Proof.
  induction l1 as [|x l1 IH]; simpl; [reflexivity|].
  destruct (p x); [reflexivity|exact IH].
Qed.

Lemma find_none_all {A : Type} (p : A -> bool) (l : list A) :
  find p l = None -> forall x, In x l -> p x = false.
Proof. intros H x Hx. exact (find_none p l H x Hx). Qed.

Lemma count_if_app {A : Type} (p : A -> bool) (l1 l2 : list A) :
  count_if p (l1 ++ l2) = (count_if p l1 + count_if p l2)%nat.
Proof.
  induction l1 as [|x l1 IH]; simpl; [reflexivity|].
  destruct (p x); simpl; rewrite IH; reflexivity.
Qed.

Lemma count_if_map_preserved {A : Type} (p : A -> bool) (f : A -> A) (l : list A) :
  (forall x, p (f x) = p x) -> count_if p (map f l) = count_if p l.
Proof.
  intro H. induction l as [|x l IH]; simpl; [reflexivity|].
  rewrite H, IH. reflexivity.
Qed.

Lemma count_if_none {A : Type} (p : A -> bool) (l : list A) :
  (forall x, In x l -> p x = false) -> count_if p l = 0%nat.
Proof.
  induction l as [|x l IH]; simpl; intro H; [reflexivity|].
  rewrite (H x (or_introl eq_refl)). apply IH. intros y Hy. apply H. right. exact Hy.
Qed.

Lemma count_if_found {A : Type} (p : A -> bool) (l : list A) (x : A) :
  find p l = Some x -> (1 <= count_if p l)%nat.
Proof.
  induction l as [|y l IH]; simpl; [discriminate|].
  destruct (p y); [intros _; lia|exact IH].
Qed.

Lemma count_if_le {A : Type} (p q : A -> bool) (l : list A) :
  (forall x, p x = true -> q x = true) -> (count_if p l <= count_if q l)%nat.
Proof.
  intro H. induction l as [|x l IH]; simpl; [lia|].
  destruct (p x) eqn:Hp.
  - rewrite (H x Hp). lia.
  - destruct (q x); lia.
Qed.

Lemma NoDup_snoc {A : Type} (l : list A) (x : A) :
  NoDup l -> ~ In x l -> NoDup (l ++ [x]).
Proof.
  induction l as [|y l IH]; simpl; intros Hnd Hx.
  - constructor; [intros []|constructor].
  - inversion Hnd as [|? ? Hy Hl]; subst. constructor.
    + rewrite in_app_iff. intros [H|[H|[]]]; [exact (Hy H)|].
      apply Hx. left. symmetry. exact H.
    + apply IH; [exact Hl|]. intro H. apply Hx. right. exact H.
Qed.

Lemma NoDup_map_eq {A B : Type} (f : A -> B) (l : list A) (x y : A) :
  NoDup (map f l) -> In x l -> In y l -> f x = f y -> x = y.
Proof.
  induction l as [|z l IH]; simpl; intros Hnd Hx Hy Hf; [contradiction|].
  inversion Hnd as [|? ? Hz Hl]; subst.
  destruct Hx as [->|Hx], Hy as [->|Hy].
  - reflexivity.
  - exfalso. apply Hz. rewrite Hf. apply in_map. exact Hy.
  - exfalso. apply Hz. rewrite <- Hf. apply in_map. exact Hx.
  - apply IH; assumption.
Qed.

(** ** updateUser *)

Lemma first_user_found (udb : UsersDb) (userId : string) (u : User) :
  first_user_by_user_id udb userId = Some u ->
  In u (users udb) /\ us_userId u = userId.
Proof.
  unfold first_user_by_user_id. rewrite hd_error_filter_find. intro H.
  apply find_some in H. destruct H as [Hin Hp]. apply String.eqb_eq in Hp.
  split; assumption.
Qed.

Lemma first_user_patched (udb : UsersDb) (id : Id) (nm em userId : string) :
  first_user_by_user_id (patch_user id nm em udb) userId
  = option_map
      (fun u => if Nat.eqb (us_id u) id
                then mkUser (us_id u) (us_userId u) nm em (stripeConnectId u)
                else u)
      (first_user_by_user_id udb userId).
Proof.
  unfold first_user_by_user_id, patch_user. simpl.
  rewrite !hd_error_filter_find. apply find_map_preserved.
  intro x. destruct (Nat.eqb (us_id x) id); reflexivity.
Qed.

(** X1. After [updateUser], the first user found for the given [userId] is the
    document whose id the call returned, and it carries the given name and
    email. *)
Theorem updateUser_then_lookup (udb : UsersDb) (userId nm em : string) :
  exists u,
    first_user_by_user_id (snd (updateUser userId nm em udb)) userId = Some u
    /\ us_id u = fst (updateUser userId nm em udb)
    /\ us_userId u = userId
    /\ us_name u = nm
    /\ us_email u = em.
Proof.
  unfold updateUser.
  destruct (first_user_by_user_id udb userId) as [ex|] eqn:Hfind; simpl.
  - destruct (first_user_found udb userId ex Hfind) as [_ Hu].
    rewrite first_user_patched, Hfind. simpl. rewrite Nat.eqb_refl.
    eexists. split; [reflexivity|]. simpl. repeat split. exact Hu.
  - unfold first_user_by_user_id in *. simpl.
    rewrite hd_error_filter_find in *. rewrite find_app, Hfind. simpl.
    rewrite String.eqb_refl. eexists. split; [reflexivity|]. repeat split.
Qed.

(** X2. [updateUser] never adds a second document for a user id that already
    has one: the number of documents with the given [userId] afterwards is
    the number before, or one when there was none. An existing document keeps
    its id and its [stripeConnectId], and the table keeps its length. *)
Theorem updateUser_no_duplicate (udb : UsersDb) (userId nm em : string) :
  count_if (fun u => String.eqb (us_userId u) userId)
    (users (snd (updateUser userId nm em udb)))
  = Nat.max 1 (count_if (fun u => String.eqb (us_userId u) userId) (users udb))
  /\
  (forall ex,
     first_user_by_user_id udb userId = Some ex ->
     fst (updateUser userId nm em udb) = us_id ex
     /\ List.length (users (snd (updateUser userId nm em udb)))
        = List.length (users udb)
     /\ first_user_by_user_id (snd (updateUser userId nm em udb)) userId
        = Some (mkUser (us_id ex) userId nm em (stripeConnectId ex)))
  /\
  (first_user_by_user_id udb userId = None ->
   List.length (users (snd (updateUser userId nm em udb)))
   = S (List.length (users udb))
   /\ first_user_by_user_id (snd (updateUser userId nm em udb)) userId
      = Some (mkUser (users_nextId udb) userId nm em None)).
Proof.
  unfold updateUser.
  destruct (first_user_by_user_id udb userId) as [ex|] eqn:Hfind; simpl.
  - destruct (first_user_found udb userId ex Hfind) as [_ Hu].
    split; [|split].
    + rewrite count_if_map_preserved
        by (intro x; destruct (Nat.eqb (us_id x) (us_id ex)); reflexivity).
      unfold first_user_by_user_id in Hfind. rewrite hd_error_filter_find in Hfind.
      pose proof (count_if_found _ _ _ Hfind) as Hc.
      destruct (count_if _ (users udb)); [inversion Hc|reflexivity].
    + intros ex' Hex. inversion Hex; subst ex'. split; [reflexivity|].
      split; [apply length_map|].
      rewrite first_user_patched, Hfind. simpl. rewrite Nat.eqb_refl, Hu. reflexivity.
    + discriminate.
  - unfold first_user_by_user_id in *. rewrite hd_error_filter_find in Hfind.
    split; [|split].
    + rewrite count_if_app. simpl. rewrite String.eqb_refl.
      rewrite (count_if_none _ _ (find_none_all _ _ Hfind)). reflexivity.
    + discriminate.
    + intros _. split.
      * rewrite length_app. simpl. lia.
      * simpl. rewrite hd_error_filter_find, find_app, Hfind. simpl.
        rewrite String.eqb_refl. reflexivity.
Qed.

Lemma updateUser_no_duplicate_witness :
  (fst (updateUser "alice" "Alice A." "a@example.org" udb_alice) = 0%nat
   /\ List.length (users (snd (updateUser "alice" "Alice A." "a@example.org" udb_alice)))
      = List.length (users udb_alice)
   /\ first_user_by_user_id
        (snd (updateUser "alice" "Alice A." "a@example.org" udb_alice)) "alice"
      = Some (mkUser 0 "alice" "Alice A." "a@example.org" (Some "acct_1"%string)))
  /\
  (List.length (users (snd (updateUser "bob" "Bob" "bob@example.org" udb_alice)))
   = S (List.length (users udb_alice))
   /\ first_user_by_user_id
        (snd (updateUser "bob" "Bob" "bob@example.org" udb_alice)) "bob"
      = Some (mkUser 1 "bob" "Bob" "bob@example.org" None)).
Proof.
  split.
  - apply (proj1 (proj2 (updateUser_no_duplicate udb_alice "alice" "Alice A."
                           "a@example.org"))
             (mkUser 0 "alice" "Alice" "alice@example.org" (Some "acct_1"%string))).
    reflexivity.
  - apply (proj2 (proj2 (updateUser_no_duplicate udb_alice "bob" "Bob"
                           "bob@example.org"))).
    reflexivity.
Defined.

Lemma patch_user_twice (id : Id) (nm em : string) (udb : UsersDb) :
  patch_user id nm em (patch_user id nm em udb) = patch_user id nm em udb.
Proof.
  unfold patch_user. simpl. f_equal. rewrite map_map. apply map_ext.
  intro u. destruct (Nat.eqb (us_id u) id) eqn:Hu; simpl; rewrite Hu; reflexivity.
Qed.

Lemma map_fixed {A : Type} (f : A -> A) (l : list A) :
  (forall x, In x l -> f x = x) -> map f l = l.
Proof.
  induction l as [|x l IH]; simpl; intro H; [reflexivity|].
  rewrite (H x (or_introl eq_refl)), IH; [reflexivity|].
  intros y Hy. apply H. right. exact Hy.
Qed.

Lemma lookup_after_patch (udb : UsersDb) (userId nm em : string) (ex : User) :
  first_user_by_user_id udb userId = Some ex ->
  first_user_by_user_id (patch_user (us_id ex) nm em udb) userId
  = Some (mkUser (us_id ex) userId nm em (stripeConnectId ex)).
Proof.
  intro Hfind. destruct (first_user_found udb userId ex Hfind) as [_ Hu].
  rewrite first_user_patched, Hfind. simpl. rewrite Nat.eqb_refl, Hu. reflexivity.
Qed.

Lemma lookup_after_insert (udb : UsersDb) (userId nm em : string) :
  first_user_by_user_id udb userId = None ->
  first_user_by_user_id (snd (insert_user userId nm em udb)) userId
  = Some (mkUser (users_nextId udb) userId nm em None).
Proof.
  unfold first_user_by_user_id. simpl. rewrite !hd_error_filter_find. intro Hfind.
  rewrite find_app, Hfind. simpl. rewrite String.eqb_refl. reflexivity.
Qed.

(** X3. Calling [updateUser] a second time with the same arguments returns the
    same id and changes nothing, provided the document ids lie below the
    counter. *)
Theorem updateUser_idempotent (udb : UsersDb) (userId nm em : string) :
  Forall (fun u => (us_id u < users_nextId udb)%nat) (users udb) ->
  updateUser userId nm em (snd (updateUser userId nm em udb))
  = updateUser userId nm em udb.
Proof.
  intro Hfresh. unfold updateUser at 2 3.
  destruct (first_user_by_user_id udb userId) as [ex|] eqn:Hfind.
  - unfold updateUser. simpl snd.
    rewrite (lookup_after_patch udb userId nm em ex Hfind). simpl.
    rewrite patch_user_twice. reflexivity.
  - unfold updateUser.
    rewrite (lookup_after_insert udb userId nm em Hfind).
    unfold insert_user, patch_user. simpl.
    f_equal. f_equal. rewrite map_app. simpl. rewrite Nat.eqb_refl. f_equal.
    apply map_fixed. intros u Hu.
    rewrite Forall_forall in Hfresh. specialize (Hfresh u Hu).
    replace (Nat.eqb (us_id u) (users_nextId udb)) with false
      by (symmetry; apply Nat.eqb_neq; lia).
    reflexivity.
Qed.

Lemma updateUser_idempotent_witness :
  updateUser "bob" "Bob" "bob@example.org"
    (snd (updateUser "bob" "Bob" "bob@example.org" udb_alice))
  = updateUser "bob" "Bob" "bob@example.org" udb_alice.
Proof.
  apply (updateUser_idempotent udb_alice "bob" "Bob" "bob@example.org").
  repeat constructor.
Defined.

(** X4. [updateUser] leaves the lookup of every other user id as it was,
    provided the document ids are distinct. *)
Theorem updateUser_other_users (udb : UsersDb) (userId nm em other : string) :
  NoDup (map us_id (users udb)) ->
  other <> userId ->
  first_user_by_user_id (snd (updateUser userId nm em udb)) other
  = first_user_by_user_id udb other.
Proof.
  intros Hnd Hne. unfold updateUser.
  destruct (first_user_by_user_id udb userId) as [ex|] eqn:Hfind; simpl.
  - rewrite first_user_patched.
    destruct (first_user_by_user_id udb other) as [x|] eqn:Hx; [|reflexivity].
    simpl. f_equal.
    destruct (first_user_found udb userId ex Hfind) as [Hin Hu].
    destruct (first_user_found udb other x Hx) as [Hin' Hu'].
    destruct (Nat.eqb (us_id x) (us_id ex)) eqn:Hid; [|reflexivity].
    apply Nat.eqb_eq in Hid.
    pose proof (NoDup_map_eq us_id (users udb) x ex Hnd Hin' Hin Hid) as Heq.
    subst x. congruence.
  - unfold first_user_by_user_id. simpl. rewrite !hd_error_filter_find, find_app.
    destruct (find _ (users udb)); [reflexivity|]. simpl.
    replace (String.eqb userId other) with false; [reflexivity|].
    symmetry. apply String.eqb_neq. congruence.
Qed.

Lemma updateUser_other_users_witness :
  first_user_by_user_id (snd (updateUser "bob" "Bob" "bob@example.org" udb_alice)) "alice"
  = first_user_by_user_id udb_alice "alice".
Proof.
  apply (updateUser_other_users udb_alice "bob" "Bob" "bob@example.org" "alice").
  - repeat constructor. intros [].
  - discriminate.
Defined.

(** X5. [updateUser] keeps the users table well formed: distinct document
    ids, distinct user ids, every document id below the counter. *)
Theorem updateUser_keeps_users_inv (udb : UsersDb) (userId nm em : string) :
  users_inv udb -> users_inv (snd (updateUser userId nm em udb)).
Proof.
  intros [Hids [Huids Hfresh]]. unfold updateUser.
  destruct (first_user_by_user_id udb userId) as [ex|] eqn:Hfind; simpl.
  - unfold users_inv, patch_user. simpl. rewrite !map_map.
    assert (Hid : map (fun u => us_id (if Nat.eqb (us_id u) (us_id ex)
                        then mkUser (us_id u) (us_userId u) nm em (stripeConnectId u)
                        else u)) (users udb) = map us_id (users udb)).
    { apply map_ext. intro u. destruct (Nat.eqb _ _); reflexivity. }
    assert (Huid : map (fun u => us_userId (if Nat.eqb (us_id u) (us_id ex)
                        then mkUser (us_id u) (us_userId u) nm em (stripeConnectId u)
                        else u)) (users udb) = map us_userId (users udb)).
    { apply map_ext. intro u. destruct (Nat.eqb _ _); reflexivity. }
    rewrite Hid, Huid. split; [exact Hids|]. split; [exact Huids|].
    rewrite Forall_forall in *. intros u Hu. apply in_map_iff in Hu.
    destruct Hu as [x [Hx Hin]]. specialize (Hfresh x Hin).
    subst u. destruct (Nat.eqb _ _); simpl; exact Hfresh.
  - unfold users_inv. simpl. rewrite !map_app. simpl.
    unfold first_user_by_user_id in Hfind. rewrite hd_error_filter_find in Hfind.
    split; [|split].
    + apply NoDup_snoc; [exact Hids|]. intro Hin. apply in_map_iff in Hin.
      destruct Hin as [x [Hx Hin]]. rewrite Forall_forall in Hfresh.
      specialize (Hfresh x Hin). lia.
    + apply NoDup_snoc; [exact Huids|]. intro Hin. apply in_map_iff in Hin.
      destruct Hin as [x [Hx Hin]].
      pose proof (find_none_all _ _ Hfind x Hin) as Hp. simpl in Hp.
      apply String.eqb_neq in Hp. congruence.
    + apply Forall_app. split.
      * eapply Forall_impl; [|exact Hfresh]. simpl. intros a Ha. lia.
      * constructor; [simpl; lia|constructor].
Qed.

Lemma updateUser_keeps_users_inv_witness :
  users_inv (snd (updateUser "bob" "Bob" "bob@example.org" udb_alice)).
Proof.
  apply (updateUser_keeps_users_inv udb_alice "bob" "Bob" "bob@example.org").
  unfold users_inv, udb_alice. simpl.
  repeat split; repeat constructor; intros [].
Defined.

(** ** What one mutation can do to the database *)

Lemma committed_create
  (nm ds lc : string) (dt : Z) (pr : Q) (total : Z) (uid : string) (db : Db) :
  committed (create nm ds lc dt pr total uid) db
  = mkDb (events db ++ [mkEvent (nextId db) nm ds lc dt pr total uid None])
      (tickets db) (waitingList db) (scheduled db) (S (nextId db)).
Proof. reflexivity. Qed.

(** The three ways [updateEvent] can end. *)
Lemma updateEvent_run (db : Db) (eventId : Id) (u : EventUpdates) :
  updateEvent eventId u db =
    match get_event db eventId with
    | None => (inl EventNotFound, db)
    | Some _ =>
        if up_totalTickets u <? Z.of_nat (count_if (sold_ticket_of eventId) (tickets db))
        then (inl (CannotReduceTotalTickets
                     (count_if (sold_ticket_of eventId) (tickets db))), db)
        else (inr eventId,
              mkDb (map (fun e => if Nat.eqb (ev_id e) eventId
                                  then apply_updates u e else e) (events db))
                (tickets db) (waitingList db) (scheduled db) (nextId db))
    end.
Proof.
  unfold updateEvent, bind, db_get_event.
  destruct (get_event db eventId) as [ev|]; [|reflexivity].
  cbv beta iota. rewrite <- (purchased_count_spec db eventId).
  unfold is_purchased, TICKET_STATUS_VALID, TICKET_STATUS_USED.
  destruct (_ <? _); reflexivity.
Qed.

Lemma committed_updateEvent (db : Db) (eventId : Id) (u : EventUpdates) :
  committed (updateEvent eventId u) db = db
  \/ (exists ev,
        get_event db eventId = Some ev
        /\ Z.of_nat (count_if (sold_ticket_of eventId) (tickets db)) <= up_totalTickets u
        /\ committed (updateEvent eventId u) db
           = mkDb (map (fun e => if Nat.eqb (ev_id e) eventId
                                 then apply_updates u e else e) (events db))
               (tickets db) (waitingList db) (scheduled db) (nextId db)).
Proof.
  unfold committed, mutation. rewrite updateEvent_run.
  destruct (get_event db eventId) as [ev|]; [|left; reflexivity].
  destruct (_ <? _) eqn:Hlt; [left; reflexivity|].
  right. exists ev. apply Z.ltb_ge in Hlt. repeat split. exact Hlt.
Qed.

Section JoinSteps.

Variable TICKET_OFFER : Z.
Variable Number_toString : Q -> string.

Local Abbreviation join := (joinWaitingList TICKET_OFFER Number_toString).

(** A join that succeeds found no active entry for the pair and found the
    event. *)
Lemma join_success_pre
  (db : Db) (eventId : Id) (userId : string) (now : Z) (r : JoinResult) (db' : Db) :
  join eventId userId now db = (inr r, db') ->
  (forall w, In w (waitingList db) -> ~ active_entry_of userId eventId w)
  /\ exists ev, get_event db eventId = Some ev.
Proof.
  intro H. split.
  - intros w Hin Hact.
    rewrite (join_duplicate TICKET_OFFER Number_toString db eventId userId now
               (ex_intro _ w (conj Hin Hact))) in H.
    discriminate H.
  - destruct (get_event db eventId) as [ev|] eqn:Hev; [exists ev; reflexivity|].
    exfalso.
    destruct (join_outcome TICKET_OFFER Number_toString db eventId userId now)
      as [Hj|[Hj|[[_ [a [Ha _]]]|[_ [a [Ha _]]]]]].
    + rewrite Hj in H. discriminate H.
    + rewrite Hj in H. discriminate H.
    + unfold checkAvailability in Ha. rewrite Hev in Ha. discriminate Ha.
    + unfold checkAvailability in Ha. rewrite Hev in Ha. discriminate Ha.
Qed.

(** The state a join commits: the database as it was, or the database with
    one entry appended for the pair, together with its job when OFFERED. *)
Lemma committed_join (db : Db) (eventId : Id) (userId : string) (now : Z) :
  committed (join eventId userId now) db = db
  \/ ((forall w, In w (waitingList db) -> ~ active_entry_of userId eventId w)
      /\ (exists ev, get_event db eventId = Some ev)
      /\ (committed (join eventId userId now) db
          = mkDb (events db) (tickets db)
              (waitingList db
               ++ [mkWaitingListEntry (nextId db) eventId userId OFFERED
                     (Some (now + TICKET_OFFER))])
              (scheduled db
               ++ [mkScheduledJob now TICKET_OFFER internal_waitingList_expireOffer
                     (nextId db) eventId])
              (S (nextId db))
          \/ committed (join eventId userId now) db
             = mkDb (events db) (tickets db)
                 (waitingList db
                  ++ [mkWaitingListEntry (nextId db) eventId userId WAITING None])
                 (scheduled db)
                 (S (nextId db)))).
Proof.
  unfold committed, mutation.
  destruct (join eventId userId now db) as [[err|r] db'] eqn:Hj; [left; reflexivity|].
  right. destruct (join_success_pre db eventId userId now r db' Hj) as [Hno Hev].
  split; [exact Hno|]. split; [exact Hev|].
  destruct (join_outcome TICKET_OFFER Number_toString db eventId userId now)
    as [H|[H|[[H _]|[H _]]]]; rewrite H in Hj; inversion Hj; subst.
  - left. reflexivity.
  - right. reflexivity.
Qed.

End JoinSteps.

Lemma run_calls_keeps
  (TICKET_OFFER : Z) (Number_toString : Q -> string) (P : Db -> Prop) :
  (forall c db, P db -> P (run_call TICKET_OFFER Number_toString c db)) ->
  forall cs db, P db -> P (run_calls TICKET_OFFER Number_toString cs db).
Proof.
  intros Hstep cs. induction cs as [|c cs IH]; simpl; intros db Hdb; [exact Hdb|].
  apply IH. apply Hstep. exact Hdb.
Qed.

(** ** Shapes kept by every sequence of mutations *)








(** Every call keeps the events that exist. *)
Lemma get_event_step
  (TICKET_OFFER : Z) (Number_toString : Q -> string) (c : call) (db : Db) (x : Id) :
  get_event db x <> None ->
  get_event (run_call TICKET_OFFER Number_toString c db) x <> None.
Proof.
  intro Hx. destruct c as [nm ds lc dt pr total uid|e u|e uid now]; simpl.
  - rewrite committed_create. unfold get_event in *. simpl. rewrite find_app.
    destruct (find _ (events db)); [discriminate|contradiction].
  - destruct (committed_updateEvent db e u) as [->|[ev [_ [_ ->]]]]; [exact Hx|].
    unfold get_event in *. simpl.
    rewrite find_map_preserved
      by (intro y; destruct (Nat.eqb (ev_id y) e); reflexivity).
    destruct (find _ (events db)); [discriminate|contradiction].
  - destruct (committed_join TICKET_OFFER Number_toString db e uid now)
      as [->|[_ [_ [->| ->]]]]; exact Hx.
Qed.

Lemma references_step
  (TICKET_OFFER : Z) (Number_toString : Q -> string) (c : call) (db : Db) :
  entries_refer_to_events db /\ tickets_refer_to_events db ->
  entries_refer_to_events (run_call TICKET_OFFER Number_toString c db)
  /\ tickets_refer_to_events (run_call TICKET_OFFER Number_toString c db).
Proof.
  intros [Hwl Htk].
  assert (Hkeep : forall x, get_event db x <> None ->
                    get_event (run_call TICKET_OFFER Number_toString c db) x <> None)
    by (intro x; apply get_event_step).
  unfold entries_refer_to_events, tickets_refer_to_events in *.
  destruct c as [nm ds lc dt pr total uid|e u|e uid now]; simpl in *.
  - split; (eapply Forall_impl; [|eassumption]); intros a Ha; apply Hkeep; exact Ha.
  - destruct (committed_updateEvent db e u) as [Heq|[ev [_ [_ Heq]]]];
      rewrite Heq in *; simpl;
      (split; (eapply Forall_impl; [|eassumption]); intros a Ha; apply Hkeep; exact Ha).
  - destruct (committed_join TICKET_OFFER Number_toString db e uid now)
      as [Heq|[_ [[ev Hev] [Heq|Heq]]]]; rewrite Heq in *; simpl.
    + split; assumption.
    + split; [|exact Htk]. apply Forall_app. split; [exact Hwl|].
      constructor; [|constructor]. simpl.
      change (get_event db e <> None). rewrite Hev. discriminate.
    + split; [|exact Htk]. apply Forall_app. split; [exact Hwl|].
      constructor; [|constructor]. simpl.
      change (get_event db e <> None). rewrite Hev. discriminate.
Qed.

(** X7. Along every sequence of [create], [updateEvent] and [joinWaitingList]
    calls, every waiting-list entry and every ticket keeps referring to an
    event of the events table: no call removes an event, and a join only
    inserts an entry for an event it found. *)
Theorem references_kept
  (TICKET_OFFER : Z) (Number_toString : Q -> string) (cs : list call) (db : Db) :
  entries_refer_to_events db /\ tickets_refer_to_events db ->
  entries_refer_to_events (run_calls TICKET_OFFER Number_toString cs db)
  /\ tickets_refer_to_events (run_calls TICKET_OFFER Number_toString cs db).
Proof.
  apply (run_calls_keeps TICKET_OFFER Number_toString
           (fun d => entries_refer_to_events d /\ tickets_refer_to_events d)).
  intros c d. apply references_step.
Qed.

Lemma references_kept_witness :
  entries_refer_to_events
    (run_calls sample_TICKET_OFFER integral_toString sample_calls db_full)
  /\ tickets_refer_to_events
       (run_calls sample_TICKET_OFFER integral_toString sample_calls db_full).
Proof.
  apply (references_kept sample_TICKET_OFFER integral_toString sample_calls db_full).
  split; repeat constructor; simpl; discriminate.
Defined.

Lemma active_pairb_spec (userId : string) (eventId : Id) (w : WaitingListEntry) :
  active_pairb userId eventId w = true <-> active_entry_of userId eventId w.
Proof.
  unfold active_pairb, active_entry_of.
  rewrite !andb_true_iff, negb_true_iff, String.eqb_eq, Nat.eqb_eq, status_eqb_neq.
  tauto.
Qed.

Lemma no_active_count (db : Db) (userId : string) (eventId : Id) :
  (forall w, In w (waitingList db) -> ~ active_entry_of userId eventId w) ->
  count_if (active_pairb userId eventId) (waitingList db) = 0%nat.
Proof.
  intro H. apply count_if_none. intros w Hw.
  destruct (active_pairb userId eventId w) eqn:Ha; [|reflexivity].
  exfalso. apply (H w Hw). apply active_pairb_spec. exact Ha.
Qed.

Lemma one_active_appended
  (db : Db) (eventId : Id) (userId : string) (w : WaitingListEntry) :
  one_active_per_pair db ->
  (forall x, In x (waitingList db) -> ~ active_entry_of userId eventId x) ->
  wl_userId w = userId ->
  wl_eventId w = eventId ->
  forall u e, (count_if (active_pairb u e) (waitingList db ++ [w]) <= 1)%nat.
Proof.
  intros Hone Hno Hu He u e. rewrite count_if_app. simpl.
  destruct (active_pairb u e w) eqn:Ha.
  - apply active_pairb_spec in Ha. destruct Ha as [Hu' [He' _]].
    assert (Hu2 : u = userId) by congruence. assert (He2 : e = eventId) by congruence.
    rewrite Hu2, He2.
    rewrite (no_active_count db userId eventId Hno). simpl. lia.
  - specialize (Hone u e). lia.
Qed.

Lemma one_active_step
  (TICKET_OFFER : Z) (Number_toString : Q -> string) (c : call) (db : Db) :
  one_active_per_pair db ->
  one_active_per_pair (run_call TICKET_OFFER Number_toString c db).
Proof.
  intro Hone. destruct c as [nm ds lc dt pr total uid|e u|e uid now]; simpl.
  - rewrite committed_create. exact Hone.
  - destruct (committed_updateEvent db e u) as [->|[ev [_ [_ ->]]]]; exact Hone.
  - destruct (committed_join TICKET_OFFER Number_toString db e uid now)
      as [->|[Hno [_ [->| ->]]]]; [exact Hone| |];
      unfold one_active_per_pair; simpl;
      apply (one_active_appended db e uid); try assumption; reflexivity.
Qed.

(** X8. Along every sequence of [create], [updateEvent] and [joinWaitingList]
    calls, no pair (user, event) ever gets a second waiting-list entry that
    is not EXPIRED. *)
Theorem one_active_per_pair_kept
  (TICKET_OFFER : Z) (Number_toString : Q -> string) (cs : list call) (db : Db) :
  one_active_per_pair db ->
  one_active_per_pair (run_calls TICKET_OFFER Number_toString cs db).
Proof.
  apply run_calls_keeps. intros c d. apply one_active_step.
Qed.

Lemma one_active_per_pair_kept_witness :
  one_active_per_pair
    (run_calls sample_TICKET_OFFER integral_toString sample_calls db_full).
Proof.
  apply (one_active_per_pair_kept sample_TICKET_OFFER integral_toString sample_calls
           db_full).
  intros u e. unfold db_full. simpl. destruct (active_pairb u e sample_offer); lia.
Defined.

Lemma expiry_shape_step
  (TICKET_OFFER : Z) (Number_toString : Q -> string) (c : call) (db : Db) :
  expiry_shape db -> expiry_shape (run_call TICKET_OFFER Number_toString c db).
Proof.
  intro Hs. destruct c as [nm ds lc dt pr total uid|e u|e uid now]; simpl.
  - rewrite committed_create. exact Hs.
  - destruct (committed_updateEvent db e u) as [->|[ev [_ [_ ->]]]]; exact Hs.
  - destruct (committed_join TICKET_OFFER Number_toString db e uid now)
      as [->|[_ [_ [->| ->]]]]; [exact Hs| |];
      unfold expiry_shape; simpl; apply Forall_app; (split; [exact Hs|]);
      (constructor; [|constructor]); simpl; split; intro H;
      first [discriminate H | reflexivity | discriminate].
Qed.

(** X9. Along every sequence of [create], [updateEvent] and [joinWaitingList]
    calls, a WAITING entry never carries [offerExpiresAt] and an OFFERED entry
    always does. *)
Theorem expiry_shape_kept
  (TICKET_OFFER : Z) (Number_toString : Q -> string) (cs : list call) (db : Db) :
  expiry_shape db -> expiry_shape (run_calls TICKET_OFFER Number_toString cs db).
Proof.
  apply run_calls_keeps. intros c d. apply expiry_shape_step.
Qed.

Lemma expiry_shape_kept_witness :
  expiry_shape (run_calls sample_TICKET_OFFER integral_toString sample_calls db_full).
Proof.
  apply (expiry_shape_kept sample_TICKET_OFFER integral_toString sample_calls db_full).
  unfold expiry_shape, db_full, sample_offer. simpl. constructor; [|constructor].
  simpl. split; intro H; [discriminate H|discriminate].
Defined.

Lemma jobs_weaken (l : list WaitingListEntry) (w : WaitingListEntry) (js : list ScheduledJob) :
  Forall (fun j => exists x,
              In x l
              /\ wl_id x = sj_waitingListId j
              /\ wl_eventId x = sj_eventId j
              /\ offerExpiresAt x = Some (sj_scheduledAt j + sj_delay j)) js ->
  Forall (fun j => exists x,
              In x (l ++ [w])
              /\ wl_id x = sj_waitingListId j
              /\ wl_eventId x = sj_eventId j
              /\ offerExpiresAt x = Some (sj_scheduledAt j + sj_delay j)) js.
Proof.
  apply Forall_impl. intros j [x [Hin H]]. exists x. split; [|exact H].
  apply in_or_app. left. exact Hin.
Qed.

Lemma jobs_match_step
  (TICKET_OFFER : Z) (Number_toString : Q -> string) (c : call) (db : Db) :
  jobs_match_offers db ->
  jobs_match_offers (run_call TICKET_OFFER Number_toString c db).
Proof.
  intro Hj. destruct c as [nm ds lc dt pr total uid|e u|e uid now]; simpl.
  - rewrite committed_create. exact Hj.
  - destruct (committed_updateEvent db e u) as [->|[ev [_ [_ ->]]]]; exact Hj.
  - destruct (committed_join TICKET_OFFER Number_toString db e uid now)
      as [->|[_ [_ [->| ->]]]]; [exact Hj| |]; unfold jobs_match_offers; simpl.
    + apply Forall_app. split; [apply jobs_weaken; exact Hj|].
      constructor; [|constructor]. eexists. split.
      * apply in_or_app. right. left. reflexivity.
      * simpl. repeat split.
    + apply jobs_weaken. exact Hj.
Qed.

(** X10. Along every sequence of [create], [updateEvent] and
    [joinWaitingList] calls, every scheduled [expireOffer] job names an entry
    of the waiting list, carries that entry's event id, and is due (time of
    scheduling plus delay) exactly at the entry's [offerExpiresAt]. *)
Theorem jobs_match_offers_kept
  (TICKET_OFFER : Z) (Number_toString : Q -> string) (cs : list call) (db : Db) :
  jobs_match_offers db ->
  jobs_match_offers (run_calls TICKET_OFFER Number_toString cs db).
Proof.
  apply run_calls_keeps. intros c d. apply jobs_match_step.
Qed.

Lemma jobs_match_offers_kept_witness :
  jobs_match_offers
    (run_calls sample_TICKET_OFFER integral_toString sample_calls db_full).
Proof.
  apply (jobs_match_offers_kept sample_TICKET_OFFER integral_toString sample_calls
           db_full).
  unfold jobs_match_offers, db_full. simpl. constructor; [|constructor].
  exists sample_offer. simpl. repeat split. left. reflexivity.
Defined.

(** ** The two availability queries *)

Lemma length_filter_count {A : Type} (p : A -> bool) (l : list A) :
  List.length (filter p l) = count_if p l.
Proof.
  induction l as [|x l IH]; simpl; [reflexivity|].
  destruct (p x); simpl; rewrite IH; reflexivity.
Qed.

(** X11. On every database and at every clock value the two availability
    queries agree: both fail with the event-not-found error when the event is
    missing, and otherwise they report the same capacity and the same two
    counts, [remainingTickets] is [availableSpots] clamped at zero, and
    [isSoldOut] is the negation of [available]. *)
Theorem availability_queries_agree (db : Db) (eventId : Id) (now : Z) :
  match checkAvailability eventId now db, getEventAvailability eventId now db with
  | inr a, inr r =>
      get_event db eventId <> None
      /\ ea_totalTickets r = ca_totalTickets a
      /\ ea_purchasedCount r = ca_purchasedCount a
      /\ ea_activeOffers r = ca_activeOffers a
      /\ remainingTickets r = Z.max 0 (availableSpots a)
      /\ isSoldOut r = negb (available a)
  | inl e1, inl e2 =>
      get_event db eventId = None /\ e1 = EventNotFound /\ e2 = EventNotFound
  | _, _ => False
  end.
Proof.
  unfold checkAvailability, getEventAvailability.
  destruct (get_event db eventId) as [ev|]; simpl; [|repeat split].
  split; [discriminate|]. repeat split.
  rewrite Z.geb_leb, Z.gtb_ltb.
  destruct (Z.leb_spec (totalTickets ev)
              (Z.of_nat (List.length (filter is_purchased (tickets_by_event db eventId)))
               + Z.of_nat (List.length (filter (offer_unexpired now)
                                     (waitingList_by_event_status db eventId OFFERED)))));
    destruct (Z.ltb_spec 0
                (totalTickets ev
                 - (Z.of_nat (List.length (filter is_purchased
                                             (tickets_by_event db eventId)))
                    + Z.of_nat (List.length (filter (offer_unexpired now)
                                     (waitingList_by_event_status db eventId OFFERED))))));
    simpl; try reflexivity; lia.
Qed.

Lemma offer_unexpired_earlier (now now' : Z) (w : WaitingListEntry) :
  now <= now' -> offer_unexpired now' w = true -> offer_unexpired now w = true.
Proof.
  unfold offer_unexpired. intros Hle.
  destruct (offerExpiresAt w) as [t|]; rewrite !Z.gtb_ltb, !Z.ltb_lt; lia.
Qed.

(** X12. On a fixed database, availability only grows with the clock: at a
    later time the active-offer count is not larger, the available spots are
    not fewer, the purchased count is the same, and an event that was
    available stays available. *)
Theorem availability_grows_with_time
  (db : Db) (eventId : Id) (now now' : Z) (a a' : Availability) :
  now <= now' ->
  checkAvailability eventId now db = inr a ->
  checkAvailability eventId now' db = inr a' ->
  ca_activeOffers a' <= ca_activeOffers a
  /\ availableSpots a <= availableSpots a'
  /\ ca_purchasedCount a' = ca_purchasedCount a
  /\ (available a = true -> available a' = true).
Proof.
  intros Hle Ha Ha'. unfold checkAvailability in *.
  destruct (get_event db eventId) as [ev|]; [|discriminate Ha].
  inversion Ha; subst a; clear Ha. inversion Ha'; subst a'; clear Ha'. simpl.
  assert (Hcount :
    (List.length (filter (offer_unexpired now')
                    (waitingList_by_event_status db eventId OFFERED))
     <= List.length (filter (offer_unexpired now)
                       (waitingList_by_event_status db eventId OFFERED)))%nat).
  { rewrite !length_filter_count. apply count_if_le.
    intro w. apply offer_unexpired_earlier. exact Hle. }
  split; [lia|]. split; [lia|]. split; [reflexivity|].
  rewrite !Z.gtb_ltb, !Z.ltb_lt. lia.
Qed.

Lemma availability_grows_with_time_witness :
  ca_activeOffers (mkAvailability true 1 2 1 0) <= ca_activeOffers (mkAvailability false 0 2 1 1)
  /\ availableSpots (mkAvailability false 0 2 1 1) <= availableSpots (mkAvailability true 1 2 1 0)
  /\ ca_purchasedCount (mkAvailability true 1 2 1 0)
     = ca_purchasedCount (mkAvailability false 0 2 1 1)
  /\ (available (mkAvailability false 0 2 1 1) = true ->
      available (mkAvailability true 1 2 1 0) = true).
Proof.
  apply (availability_grows_with_time db_full 0 2000 1900000
           (mkAvailability false 0 2 1 1) (mkAvailability true 1 2 1 0)).
  - lia.
  - reflexivity.
  - reflexivity.
Defined.

(** X13. Once the clock (not negative) has reached every expiry time stored
    on the event's entries, [checkAvailability] counts no active offer and
    the available spots are the capacity minus the purchased tickets. *)
Theorem no_offer_outlives_its_expiry
  (db : Db) (eventId : Id) (now : Z) (a : Availability) :
  0 <= now ->
  (forall w t, In w (waitingList db) -> wl_eventId w = eventId ->
               offerExpiresAt w = Some t -> t <= now) ->
  checkAvailability eventId now db = inr a ->
  ca_activeOffers a = 0
  /\ availableSpots a = ca_totalTickets a - ca_purchasedCount a.
Proof.
  intros Hnow Hpast Ha. unfold checkAvailability in Ha.
  destruct (get_event db eventId) as [ev|]; [|discriminate Ha].
  inversion Ha; subst a; clear Ha. simpl.
  assert (Hzero :
    List.length (filter (offer_unexpired now)
                   (waitingList_by_event_status db eventId OFFERED)) = 0%nat).
  { rewrite length_filter_count. apply count_if_none. intros w Hw.
    unfold waitingList_by_event_status in Hw. apply filter_In in Hw.
    destruct Hw as [Hin Hk]. apply andb_true_iff in Hk. destruct Hk as [He _].
    apply Nat.eqb_eq in He. unfold offer_unexpired.
    destruct (offerExpiresAt w) as [t|] eqn:Ht; rewrite Z.gtb_ltb; apply Z.ltb_ge.
    - exact (Hpast w t Hin He Ht).
    - exact Hnow. }
  rewrite Hzero. simpl. split; [reflexivity|lia].
Qed.

Lemma no_offer_outlives_its_expiry_witness :
  ca_activeOffers (mkAvailability true 1 2 1 0) = 0
  /\ availableSpots (mkAvailability true 1 2 1 0)
     = ca_totalTickets (mkAvailability true 1 2 1 0)
       - ca_purchasedCount (mkAvailability true 1 2 1 0).
Proof.
  apply (no_offer_outlives_its_expiry db_full 0 1801000 (mkAvailability true 1 2 1 0)).
  - lia.
  - intros w t [<-|[]] _ Ht. simpl in Ht. inversion Ht. lia.
  - reflexivity.
Defined.

(** X14. Whatever [getEventAvailability] returns, the two counts and the
    remaining tickets are not negative, the event is sold out exactly when no
    ticket remains, and when it is not sold out the remaining tickets, the
    purchased tickets and the active offers add up to the capacity. *)
Theorem getEventAvailability_bounds
  (db : Db) (eventId : Id) (now : Z) (r : EventAvailability) :
  getEventAvailability eventId now db = inr r ->
  0 <= ea_purchasedCount r
  /\ 0 <= ea_activeOffers r
  /\ 0 <= remainingTickets r
  /\ (isSoldOut r = true <-> remainingTickets r = 0)
  /\ (isSoldOut r = false ->
      remainingTickets r + ea_purchasedCount r + ea_activeOffers r = ea_totalTickets r).
Proof.
  intro Hr. unfold getEventAvailability in Hr.
  destruct (get_event db eventId) as [ev|]; [|discriminate Hr].
  inversion Hr; subst r; clear Hr. simpl.
  split; [lia|]. split; [lia|]. split; [lia|]. split.
  - rewrite Z.geb_leb, Z.leb_le. lia.
  - rewrite Z.geb_leb, Z.leb_gt. lia.
Qed.

Lemma getEventAvailability_bounds_witness :
  0 <= ea_purchasedCount (mkEventAvailability true 2 1 1 0)
  /\ 0 <= ea_activeOffers (mkEventAvailability true 2 1 1 0)
  /\ 0 <= remainingTickets (mkEventAvailability true 2 1 1 0)
  /\ (isSoldOut (mkEventAvailability true 2 1 1 0) = true
      <-> remainingTickets (mkEventAvailability true 2 1 1 0) = 0)
  /\ (isSoldOut (mkEventAvailability true 2 1 1 0) = false ->
      remainingTickets (mkEventAvailability true 2 1 1 0)
      + ea_purchasedCount (mkEventAvailability true 2 1 1 0)
      + ea_activeOffers (mkEventAvailability true 2 1 1 0)
      = ea_totalTickets (mkEventAvailability true 2 1 1 0)).
Proof.
  apply (getEventAvailability_bounds db_full 0 2000 (mkEventAvailability true 2 1 1 0)).
  reflexivity.
Defined.

(** ** Joining, once more *)



Section JoinMore.

Variable TICKET_OFFER : Z.
Variable Number_toString : Q -> string.

Local Abbreviation join := (joinWaitingList TICKET_OFFER Number_toString).

(** X15. After a successful join, a second join by the same user for the same
    event fails with the already-in-waiting-list error, whatever the time of
    the second call, and writes nothing. *)
Theorem join_twice_rejected
  (db : Db) (eventId : Id) (userId : string) (now now' : Z)
  (r : JoinResult) (db' : Db) :
  join eventId userId now db = (inr r, db') ->
  join eventId userId now' db' = (inl AlreadyInWaitingList, db').
Proof.
  intro Hj.
  destruct (join_outcome TICKET_OFFER Number_toString db eventId userId now)
    as [H|[H|[[H _]|[H _]]]]; rewrite H in Hj; inversion Hj; subst; clear Hj;
    apply join_duplicate; eexists; (split; [apply in_or_app; right; left; reflexivity|]);
    repeat split; simpl; discriminate.
Qed.


(** X17. A join for one event, whatever its outcome, leaves what both
    availability queries answer for every other event unchanged. *)
Theorem join_leaves_other_events
  (db : Db) (eventId other : Id) (userId : string) (now now' : Z) :
  other <> eventId ->
  checkAvailability other now' (committed (join eventId userId now) db)
  = checkAvailability other now' db
  /\ getEventAvailability other now' (committed (join eventId userId now) db)
     = getEventAvailability other now' db.
Proof.
  intro Hne.
  assert (Hoff : forall w js n,
    wl_eventId w = eventId ->
    waitingList_by_event_status
      (mkDb (events db) (tickets db) (waitingList db ++ [w]) js n) other OFFERED
    = waitingList_by_event_status db other OFFERED).
  { intros w js n Hw. unfold waitingList_by_event_status. simpl.
    rewrite filter_app. simpl. rewrite Hw.
    replace (Nat.eqb eventId other) with false
      by (symmetry; apply Nat.eqb_neq; congruence).
    simpl. apply app_nil_r. }
  destruct (committed_join TICKET_OFFER Number_toString db eventId userId now)
    as [->|[_ [_ [->| ->]]]]; [split; reflexivity| |];
    unfold checkAvailability, getEventAvailability;
    rewrite Hoff by reflexivity; split; reflexivity.
Qed.

End JoinMore.

Lemma join_twice_rejected_witness :
  joinWaitingList sample_TICKET_OFFER integral_toString 0 "bob" 9000 db_fresh_bob
  = (inl AlreadyInWaitingList, db_fresh_bob).
Proof.
  apply (join_twice_rejected sample_TICKET_OFFER integral_toString db_fresh 0 "bob"
           1000 9000
           (mkJoinResult true OFFERED "Ticket offered - you have 30 minutes to purchase")).
  vm_compute. reflexivity.
Defined.


Lemma join_leaves_other_events_witness :
  checkAvailability 0 9000
    (committed (joinWaitingList sample_TICKET_OFFER integral_toString 3 "bob" 1000)
       (committed (create "Recital" "Piano" "Chapel" 1790000700000 (inject_Z 12) 1 "seller")
          db_full))
  = checkAvailability 0 9000
      (committed (create "Recital" "Piano" "Chapel" 1790000700000 (inject_Z 12) 1 "seller")
         db_full)
  /\ getEventAvailability 0 9000
       (committed (joinWaitingList sample_TICKET_OFFER integral_toString 3 "bob" 1000)
          (committed
             (create "Recital" "Piano" "Chapel" 1790000700000 (inject_Z 12) 1 "seller")
             db_full))
     = getEventAvailability 0 9000
         (committed
            (create "Recital" "Piano" "Chapel" 1790000700000 (inject_Z 12) 1 "seller")
            db_full).
Proof.
  apply (join_leaves_other_events sample_TICKET_OFFER integral_toString
           (committed
              (create "Recital" "Piano" "Chapel" 1790000700000 (inject_Z 12) 1 "seller")
              db_full)
           3 0 "bob" 1000 9000).
  discriminate.
Defined.

(** ** Updating and creating events, once more *)

(** X18. [updateEvent] fails with the event-not-found error when the event is
    missing; every failure leaves the database as it was and is either that
    error on a missing event, or the capacity error carrying the number of
    sold tickets, on an existing event whose new capacity is below it. *)
Theorem updateEvent_failures (db : Db) (eventId : Id) (u : EventUpdates) :
  (get_event db eventId = None ->
   updateEvent eventId u db = (inl EventNotFound, db))
  /\
  (forall err db',
     updateEvent eventId u db = (inl err, db') ->
     db' = db
     /\ ((err = EventNotFound /\ get_event db eventId = None)
         \/ (err = CannotReduceTotalTickets
                     (count_if (sold_ticket_of eventId) (tickets db))
             /\ get_event db eventId <> None
             /\ up_totalTickets u
                < Z.of_nat (count_if (sold_ticket_of eventId) (tickets db))))).
Proof.
  rewrite updateEvent_run. split.
  - intros ->. reflexivity.
  - intros err db'. destruct (get_event db eventId) as [ev|].
    + destruct (_ <? _) eqn:Hlt; intro H; inversion H; subst.
      split; [reflexivity|]. right. apply Z.ltb_lt in Hlt.
      split; [reflexivity|]. split; [discriminate|exact Hlt].
    + intro H. inversion H; subst. split; [reflexivity|]. left. split; reflexivity.
Qed.

Lemma updateEvent_failures_witness :
  updateEvent 9 (sample_updates 5) db_full = (inl EventNotFound, db_full)
  /\ (db_full = db_full
      /\ ((CannotReduceTotalTickets 1 = EventNotFound /\ get_event db_full 0 = None)
          \/ (CannotReduceTotalTickets 1
              = CannotReduceTotalTickets (count_if (sold_ticket_of 0) (tickets db_full))
              /\ get_event db_full 0 <> None
              /\ up_totalTickets (sample_updates 0)
                 < Z.of_nat (count_if (sold_ticket_of 0) (tickets db_full))))).
Proof.
  split.
  - apply (proj1 (updateEvent_failures db_full 9 (sample_updates 5))). reflexivity.
  - apply (proj2 (updateEvent_failures db_full 0 (sample_updates 0))
             (CannotReduceTotalTickets 1) db_full).
    reflexivity.
Defined.

(** The state of a successful [updateEvent]. *)
Lemma updateEvent_success
  (db : Db) (eventId : Id) (u : EventUpdates) (id : Id) (db' : Db) :
  updateEvent eventId u db = (inr id, db') ->
  id = eventId
  /\ (exists ev, get_event db eventId = Some ev)
  /\ Z.of_nat (count_if (sold_ticket_of eventId) (tickets db)) <= up_totalTickets u
  /\ db' = mkDb (map (fun e => if Nat.eqb (ev_id e) eventId
                               then apply_updates u e else e) (events db))
             (tickets db) (waitingList db) (scheduled db) (nextId db).
Proof.
  rewrite updateEvent_run. destruct (get_event db eventId) as [ev|]; [|discriminate].
  destruct (_ <? _) eqn:Hlt; [discriminate|].
  intro H. inversion H; subst. apply Z.ltb_ge in Hlt.
  split; [reflexivity|]. split; [exists ev; reflexivity|]. split; [exact Hlt|reflexivity].
Qed.

(** X19. After a successful [updateEvent], [getEventAvailability] reports the
    new capacity with the same purchased and active-offer counts as before,
    and the purchased count does not exceed the new capacity. *)
Theorem updateEvent_then_availability
  (db : Db) (eventId : Id) (u : EventUpdates) (now : Z) (id : Id) (db' : Db) :
  updateEvent eventId u db = (inr id, db') ->
  exists r0 r,
    getEventAvailability eventId now db = inr r0
    /\ getEventAvailability eventId now db' = inr r
    /\ ea_totalTickets r = up_totalTickets u
    /\ ea_purchasedCount r = ea_purchasedCount r0
    /\ ea_activeOffers r = ea_activeOffers r0
    /\ ea_purchasedCount r <= ea_totalTickets r
    /\ remainingTickets r
       = Z.max 0 (up_totalTickets u - (ea_purchasedCount r0 + ea_activeOffers r0)).
Proof.
  intro H. destruct (updateEvent_success db eventId u id db' H)
    as [_ [[ev Hev] [Hsold ->]]].
  set (db1 := mkDb _ (tickets db) (waitingList db) (scheduled db) (nextId db)).
  assert (Hg : get_event db1 eventId = Some (apply_updates u ev)).
  { unfold get_event, db1. simpl. apply get_event_patched. exact Hev. }
  assert (Ht : tickets_by_event db1 eventId = tickets_by_event db eventId)
    by reflexivity.
  assert (Hw : waitingList_by_event_status db1 eventId OFFERED
               = waitingList_by_event_status db eventId OFFERED) by reflexivity.
  unfold getEventAvailability. rewrite Hg, Hev, Ht, Hw.
  do 2 eexists. split; [reflexivity|]. split; [reflexivity|]. simpl.
  rewrite (purchased_count_spec db eventId). repeat split. exact Hsold.
Qed.

Lemma updateEvent_then_availability_witness :
  exists r0 r,
    getEventAvailability 0 2000 db_full = inr r0
    /\ getEventAvailability 0 2000 (snd (updateEvent 0 (sample_updates 5) db_full)) = inr r
    /\ ea_totalTickets r = up_totalTickets (sample_updates 5)
    /\ ea_purchasedCount r = ea_purchasedCount r0
    /\ ea_activeOffers r = ea_activeOffers r0
    /\ ea_purchasedCount r <= ea_totalTickets r
    /\ remainingTickets r
       = Z.max 0 (up_totalTickets (sample_updates 5)
                  - (ea_purchasedCount r0 + ea_activeOffers r0)).
Proof.
  apply (updateEvent_then_availability db_full 0 (sample_updates 5) 2000 0%nat
           (snd (updateEvent 0 (sample_updates 5) db_full))).
  reflexivity.
Defined.

(** X20. Repeating a successful [updateEvent] with the same arguments succeeds
    again and changes nothing. *)
Theorem updateEvent_idempotent
  (db : Db) (eventId : Id) (u : EventUpdates) (id : Id) (db' : Db) :
  updateEvent eventId u db = (inr id, db') ->
  updateEvent eventId u db' = (inr id, db').
Proof.
  intro H. destruct (updateEvent_success db eventId u id db' H)
    as [-> [[ev Hev] [Hsold ->]]].
  rewrite updateEvent_run.
  set (db1 := mkDb _ (tickets db) (waitingList db) (scheduled db) (nextId db)).
  assert (Hg : get_event db1 eventId = Some (apply_updates u ev)).
  { unfold get_event, db1. simpl. apply get_event_patched. exact Hev. }
  rewrite Hg. change (tickets db1) with (tickets db).
  replace (up_totalTickets u <? _) with false
    by (symmetry; apply Z.ltb_ge; exact Hsold).
  f_equal. unfold db1. simpl. f_equal. rewrite map_map. apply map_ext.
  intro e. destruct (Nat.eqb (ev_id e) eventId) eqn:He; simpl; rewrite He; reflexivity.
Qed.

Lemma updateEvent_idempotent_witness :
  updateEvent 0 (sample_updates 5) (snd (updateEvent 0 (sample_updates 5) db_full))
  = (inr 0%nat, snd (updateEvent 0 (sample_updates 5) db_full)).
Proof.
  apply (updateEvent_idempotent db_full 0 (sample_updates 5) 0%nat
           (snd (updateEvent 0 (sample_updates 5) db_full))).
  reflexivity.
Defined.

(** X21. [updateEvent] on one event, whatever its outcome, leaves every other
    event's document and what both availability queries answer for it
    unchanged. *)
Theorem updateEvent_leaves_other_events
  (db : Db) (eventId other : Id) (u : EventUpdates) (now : Z) :
  other <> eventId ->
  getById other (committed (updateEvent eventId u) db) = getById other db
  /\ checkAvailability other now (committed (updateEvent eventId u) db)
     = checkAvailability other now db
  /\ getEventAvailability other now (committed (updateEvent eventId u) db)
     = getEventAvailability other now db.
Proof.
  intro Hne.
  destruct (committed_updateEvent db eventId u) as [->|[ev [_ [_ ->]]]];
    [repeat split|].
  set (db1 := mkDb _ (tickets db) (waitingList db) (scheduled db) (nextId db)).
  assert (Hg : get_event db1 other = get_event db other).
  { unfold get_event, db1. simpl. apply get_event_patched_other. exact Hne. }
  assert (Ht : tickets_by_event db1 other = tickets_by_event db other) by reflexivity.
  assert (Hw : waitingList_by_event_status db1 other OFFERED
               = waitingList_by_event_status db other OFFERED) by reflexivity.
  unfold getById, checkAvailability, getEventAvailability.
  rewrite Hg, Ht, Hw. repeat split.
Qed.

Lemma updateEvent_leaves_other_events_witness :
  getById 0 (committed (updateEvent 3 (sample_updates 4))
               (committed
                  (create "Recital" "Piano" "Chapel" 1790000700000 (inject_Z 12) 1
                     "seller") db_full))
  = getById 0 (committed
                 (create "Recital" "Piano" "Chapel" 1790000700000 (inject_Z 12) 1
                    "seller") db_full)
  /\ checkAvailability 0 2000
       (committed (updateEvent 3 (sample_updates 4))
          (committed
             (create "Recital" "Piano" "Chapel" 1790000700000 (inject_Z 12) 1
                "seller") db_full))
     = checkAvailability 0 2000
         (committed
            (create "Recital" "Piano" "Chapel" 1790000700000 (inject_Z 12) 1
               "seller") db_full)
  /\ getEventAvailability 0 2000
       (committed (updateEvent 3 (sample_updates 4))
          (committed
             (create "Recital" "Piano" "Chapel" 1790000700000 (inject_Z 12) 1
                "seller") db_full))
     = getEventAvailability 0 2000
         (committed
            (create "Recital" "Piano" "Chapel" 1790000700000 (inject_Z 12) 1
               "seller") db_full).
Proof.
  apply (updateEvent_leaves_other_events
           (committed
              (create "Recital" "Piano" "Chapel" 1790000700000 (inject_Z 12) 1
                 "seller") db_full)
           3 0 (sample_updates 4) 2000).
  discriminate.
Defined.

Lemma find_none_intro {A : Type} (p : A -> bool) (l : list A) :
  (forall x, In x l -> p x = false) -> find p l = None.
Proof.
  induction l as [|x l IH]; simpl; intro H; [reflexivity|].
  rewrite (H x (or_introl eq_refl)). apply IH. intros y Hy. apply H. right. exact Hy.
Qed.

Lemma filter_nil_intro {A : Type} (p : A -> bool) (l : list A) :
  (forall x, In x l -> p x = false) -> filter p l = [].
Proof.
  induction l as [|x l IH]; simpl; intro H; [reflexivity|].
  rewrite (H x (or_introl eq_refl)). apply IH. intros y Hy. apply H. right. exact Hy.
Qed.

Lemma counter_is_no_event (db : Db) :
  Forall (fun e => (ev_id e < nextId db)%nat) (events db) ->
  get_event db (nextId db) = None.
Proof.
  intro H. unfold get_event. apply find_none_intro. intros e He.
  rewrite Forall_forall in H. specialize (H e He). apply Nat.eqb_neq. lia.
Qed.

(** X22. When the event ids lie below the id counter, [create] returns a new
    id under which [getById] finds exactly the event with the given fields
    and no cancellation mark; every other id is looked up as before, and
    [get] lists the new event after the events it listed before. *)
Theorem create_then_lookup
  (db : Db) (nm ds lc : string) (dt : Z) (pr : Q) (total : Z) (uid : string) :
  Forall (fun e => (ev_id e < nextId db)%nat) (events db) ->
  exists db',
    create nm ds lc dt pr total uid db = (inr (nextId db), db')
    /\ getById (nextId db) db'
       = inr (Some (mkEvent (nextId db) nm ds lc dt pr total uid None))
    /\ (forall other, other <> nextId db -> getById other db' = getById other db)
    /\ (forall l, get db = inr l ->
                  get db' = inr (l ++ [mkEvent (nextId db) nm ds lc dt pr total uid None])).
Proof.
  intro Hfresh. eexists. split; [reflexivity|].
  pose proof (counter_is_no_event db Hfresh) as Hnone. unfold get_event in Hnone.
  unfold getById, get, get_event. simpl. split; [|split].
  - rewrite find_app, Hnone. simpl. rewrite Nat.eqb_refl. reflexivity.
  - intros other Hne. rewrite find_app.
    destruct (find (fun e => Nat.eqb (ev_id e) other) (events db)); [reflexivity|].
    simpl. replace (Nat.eqb (nextId db) other) with false; [reflexivity|].
    symmetry. apply Nat.eqb_neq. congruence.
  - intros l Hl. inversion Hl; subst l. rewrite filter_app. reflexivity.
Qed.

Lemma create_then_lookup_witness :
  exists db',
    create "Recital" "Piano" "Chapel" 1790000700000 (inject_Z 12) 1 "seller" db_full
    = (inr (nextId db_full), db')
    /\ getById (nextId db_full) db'
       = inr (Some (mkEvent (nextId db_full) "Recital" "Piano" "Chapel" 1790000700000
                      (inject_Z 12) 1 "seller" None))
    /\ (forall other, other <> nextId db_full -> getById other db' = getById other db_full)
    /\ (forall l, get db_full = inr l ->
                  get db'
                  = inr (l ++ [mkEvent (nextId db_full) "Recital" "Piano" "Chapel"
                                 1790000700000 (inject_Z 12) 1 "seller" None])).
Proof.
  apply (create_then_lookup db_full "Recital" "Piano" "Chapel" 1790000700000
           (inject_Z 12) 1 "seller").
  repeat constructor.
Defined.

(** X23. On a database whose event ids lie below the id counter and whose
    tickets and waiting-list entries all refer to existing events, a newly
    created event has its whole capacity available: no purchased ticket, no
    active offer, [availableSpots] equal to [totalTickets]. *)
Theorem created_event_fully_available
  (db : Db) (nm ds lc : string) (dt : Z) (pr : Q) (total : Z) (uid : string) (now : Z) :
  Forall (fun e => (ev_id e < nextId db)%nat) (events db) ->
  entries_refer_to_events db ->
  tickets_refer_to_events db ->
  checkAvailability (nextId db) now (committed (create nm ds lc dt pr total uid) db)
  = inr (mkAvailability (total >? 0) total total 0 0).
Proof.
  intros Hfresh Hwl Htk. rewrite committed_create.
  pose proof (counter_is_no_event db Hfresh) as Hnone.
  set (db1 := mkDb _ (tickets db) (waitingList db) (scheduled db) (S (nextId db))).
  assert (Hg : get_event db1 (nextId db)
               = Some (mkEvent (nextId db) nm ds lc dt pr total uid None)).
  { unfold get_event in *. unfold db1. simpl. rewrite find_app, Hnone. simpl.
    rewrite Nat.eqb_refl. reflexivity. }
  assert (Ht : tickets_by_event db1 (nextId db) = []).
  { unfold tickets_by_event, db1. simpl. apply filter_nil_intro. intros t Hin.
    unfold tickets_refer_to_events in Htk. rewrite Forall_forall in Htk.
    specialize (Htk t Hin). apply Nat.eqb_neq. intro Heq. apply Htk.
    rewrite Heq. exact Hnone. }
  assert (Hw : waitingList_by_event_status db1 (nextId db) OFFERED = []).
  { unfold waitingList_by_event_status, db1. simpl. apply filter_nil_intro.
    intros w Hin. unfold entries_refer_to_events in Hwl. rewrite Forall_forall in Hwl.
    specialize (Hwl w Hin). apply andb_false_iff. left. apply Nat.eqb_neq.
    intro Heq. apply Hwl. rewrite Heq. exact Hnone. }
  unfold checkAvailability. rewrite Hg, Ht, Hw. simpl. rewrite Z.sub_0_r. reflexivity.
Qed.

Lemma created_event_fully_available_witness :
  checkAvailability (nextId db_full) 2000
    (committed (create "Recital" "Piano" "Chapel" 1790000700000 (inject_Z 12) 7 "seller")
       db_full)
  = inr (mkAvailability (7 >? 0) 7 7 0 0).
Proof.
  apply (created_event_fully_available db_full "Recital" "Piano" "Chapel" 1790000700000
           (inject_Z 12) 7 "seller" 2000).
  - repeat constructor.
  - repeat constructor. simpl. discriminate.
  - repeat constructor. simpl. discriminate.
Defined.
